(** * IMAPWatcher: the IDLE handler of [src/lib/idle.py]

    A shallow embedding of [ImapIdleHandler]: the Python values the handler
    inspects, the response parser [__get_new_message_number], the envelope
    fetcher [__get_message_envelope], the check cycle [__idle_loop], the
    IDLE session [__idle_client] and the worker's main loop [__idle],
    followed by the properties of the error budget, the parser and the
    containment of fetch and dispatch failures. *)

From stdpp Require Import base option list strings gmap.
From Stdlib Require Import ZArith Lia.

Local Open Scope Z_scope.

(** ** Python values and exceptions *)

Module Py.

(** The values that reach the handler: what [IMAPClient.idle_check] and
    [IMAPClient.fetch] hand back.  [PyNamedTuple] stands for an instance of a
    subclass of [tuple] (such as [Envelope]): it is indexed and measured like
    a tuple, but [type(x) is tuple] is false for it. *)
#[warnings="-register-all"]
Inductive pyval : Type :=
| PyNone
| PyBool (b : bool)
| PyInt (n : Z)
| PyBytes (s : string)
| PyStr (s : string)
| PyTuple (items : list pyval)
| PyList (items : list pyval)
| PyNamedTuple (items : list pyval).

(** Exceptions.  Every constructor but [KeyboardInterrupt] is a subclass of
    [Exception]; [Exception msg cause] is [raise Exception(msg) from cause]
    and [LibraryError] any other [Exception] raised by a collaborator
    (socket errors, [IMAPClientError], a failing callback...). *)
Inductive exn : Type :=
| TypeError
| IndexError
| KeyError
| LibraryError (what : string)
| Exception (msg : string) (cause : exn)
| KeyboardInterrupt.

(** [isinstance(e, Exception)]: what an [except Exception] clause catches. *)
Definition is_Exception (e : exn) : bool :=
  match e with
  | KeyboardInterrupt => false
  | _ => true
  end.

(** The outcome of evaluating a Python expression or call. *)
Inductive outcome (A : Type) : Type :=
| Ret (a : A)
| Raise (e : exn).
Arguments Ret {A} a.
Arguments Raise {A} e.

#[global] Instance outcome_ret : MRet outcome := @Ret.
#[global] Instance outcome_bind : MBind outcome := fun A B f m =>
  match m with
  | Ret a => f a
  | Raise e => Raise e
  end.

(** [type(v) is list] and [type(v) is tuple]: exact type tests. *)
Definition type_is_list (v : pyval) : bool :=
  match v with PyList _ => true | _ => false end.

Definition type_is_tuple (v : pyval) : bool :=
  match v with PyTuple _ => true | _ => false end.

(** [len(v)]; objects without a length raise [TypeError]. *)
Definition len (v : pyval) : outcome Z :=
  match v with
  | PyBytes s | PyStr s => Ret (Z.of_nat (String.length s))
  | PyTuple l | PyList l | PyNamedTuple l => Ret (Z.of_nat (length l))
  | PyNone | PyBool _ | PyInt _ => Raise TypeError
  end.

(** [xs[i]] on the items of a sequence, negative indices counted from the
    end, [IndexError] out of range. *)
Definition index_items (l : list pyval) (i : Z) : outcome pyval :=
  let j := if i <? 0 then i + Z.of_nat (length l) else i in
  if j <? 0 then Raise IndexError
  else match l !! Z.to_nat j with
       | Some x => Ret x
       | None => Raise IndexError
       end.

(** [v[i]] for an integer index. *)
Definition getitem (v : pyval) (i : Z) : outcome pyval :=
  match v with
  | PyTuple l | PyList l | PyNamedTuple l => index_items l i
  | PyBytes s =>
      index_items (map (fun a => PyInt (Z.of_nat (Ascii.nat_of_ascii a)))
                       (String.list_ascii_of_string s)) i
  | PyStr s =>
      index_items (map (fun a => PyStr (String a EmptyString))
                       (String.list_ascii_of_string s)) i
  | PyNone | PyBool _ | PyInt _ => Raise TypeError
  end.

(** [v == b'...']: only a [bytes] object with the same contents is equal to
    a [bytes] literal. *)
Definition eq_bytes (v : pyval) (lit : string) : bool :=
  match v with
  | PyBytes s => bool_decide (s = lit)
  | _ => false
  end.

(** [a and b] on conditions: [b] is evaluated only when [a] holds. *)
Definition and_then (a b : outcome bool) : outcome bool :=
  x ← a; if x : bool then b else Ret false.

(** Truth value of [v], as tested by [if v] and [not v]. *)
Definition truthy (v : pyval) : bool :=
  match v with
  | PyNone => false
  | PyBool b => b
  | PyInt n => negb (n =? 0)
  | PyBytes s | PyStr s => negb (bool_decide (s = EmptyString))
  | PyTuple l | PyList l | PyNamedTuple l =>
      match l with [] => false | _ => true end
  end.

End Py.
Import Py.

(** ** The response parser *)

Definition EXISTS : string := "EXISTS"%string.
Definition RECENT : string := "RECENT"%string.

(** [ImapIdleHandler.__get_new_message_number(responses, ignoreRecentFlag)].
    [PyNone] is Python's [None]. *)
Definition get_new_message_number (responses : pyval) (ignoreRecentFlag : bool)
  : outcome pyval :=
  if negb ignoreRecentFlag then
    if negb (type_is_list responses) then Ret PyNone else
    n ← len responses;
    if n <? 2 then Ret PyNone else
    response1 ← getitem responses 0;
    if negb (type_is_tuple response1) then Ret PyNone else
    n1 ← len response1;
    if n1 <? 2 then Ret PyNone else
    response2 ← getitem responses 1;
    if negb (type_is_tuple response2) then Ret PyNone else
    n2 ← len response2;
    if n2 <? 2 then Ret PyNone else
    c ← and_then (k ← getitem response1 1; Ret (eq_bytes k EXISTS))
                 (k ← getitem response2 1; Ret (eq_bytes k RECENT));
    if c : bool then getitem response1 0 else
    c ← and_then (k ← getitem response2 1; Ret (eq_bytes k EXISTS))
                 (k ← getitem response1 1; Ret (eq_bytes k RECENT));
    if c : bool then getitem response2 0 else
    Ret PyNone
  else
    if negb (type_is_list responses) then Ret PyNone else
    n ← len responses;
    if n <? 1 then Ret PyNone else
    response1 ← getitem responses 0;
    if negb (type_is_tuple response1) then Ret PyNone else
    n1 ← len response1;
    if n1 <? 2 then Ret PyNone else
    k1 ← getitem response1 1;
    if eq_bytes k1 EXISTS then getitem response1 0 else
    Ret PyNone.

(** A raw notification as the protocol delivers it: (numeric tag, response
    keyword) pairs, and the Python list of 2-tuples that carries it. *)
Definition notification : Type := list (Z * string).

Definition encode_pair (p : Z * string) : pyval :=
  PyTuple [PyInt p.1; PyBytes p.2].

Definition encode (raw : notification) : pyval :=
  PyList (encode_pair <$> raw).

(** ** The worker's world: instance attributes, collaborators, observations *)

(** An IMAP session handle; [connect] numbers the sessions it opens. *)
Definition client : Type := nat.

(** What [IMAPClient.fetch] returns: message number to (item name to value). *)
Abbreviation fetch_result := (gmap Z (gmap string pyval)).

(** The messages handed to the logger. *)
Inductive message : Type :=
| ThreadStopped
| ConnectionFailed (ex : exn)
| LeavingThread (errors : Z)
| IdleFailed (ex : exn)
| EnterIdle
| EnforceReconnection
| StoppedByKeyboard
| LeavingIdle
| Received (responses : pyval)
| FetchingEnvelope (message_nr : pyval)
| CallbackFailed (ex : exn)
| NoDataFound (message_nr : pyval)
| NoEnvelopeFound (message_nr : pyval)
| SeparateConnectionFailed (ex : exn).

(** What the worker does to the outside, with what came back. *)
Inductive event : Type :=
| Log (m : message)
| Connect (select_folder : string) (select_folder_readonly : bool)
          (r : outcome client)
| Idle (c : client) (r : outcome unit)
| Time (now : Z)
| IdleCheck (c : client) (timeout : Z) (r : outcome pyval)
| IdleDone (c : client) (r : outcome unit)
| Logout (c : client) (r : outcome unit)
| Fetch (c : client) (message_number : pyval) (r : outcome fetch_result)
| Trigger (envelope : pyval) (r : outcome unit)
| Sleep (seconds : Z).

(** The class attributes and constructor arguments of [ImapIdleHandler]. *)
Record config : Type := {
  MAX_IMAP_ERROR_COUNT : Z;
  SECONDS_TO_WAIT_AFTER_ERROR : Z;
  SECONDS_TO_RECONNECT_AFTER : Z;
  SECONDS_TO_WAIT_FOR_IDLE_RESPONSE : Z;
  folder : string;
  ignoreRecentFlag : bool;
}.

(** The defaults of the class. *)
Definition default_config : config := {|
  MAX_IMAP_ERROR_COUNT := 0;
  SECONDS_TO_WAIT_AFTER_ERROR := 60;
  SECONDS_TO_RECONNECT_AFTER := 600;
  SECONDS_TO_WAIT_FOR_IDLE_RESPONSE := 15;
  folder := "INBOX";
  ignoreRecentFlag := false;
|}.

(** The collaborators.  The worker is sequential, so whatever the connector,
    the server, the callback, the clock and the controlling thread do is a
    function of how many times the worker has turned to them so far: the
    answer to its [t]-th interaction.  [stop_requested t] tells whether
    [stop()] was called since the worker last looked at its flag. *)
Record environment : Type := {
  stop_requested : nat → bool;
  connect_answer : nat → outcome unit;
  idle_answer : nat → outcome unit;
  clock : nat → Z;
  idle_check_answer : nat → outcome pyval;
  idle_done_answer : nat → outcome unit;
  logout_answer : nat → outcome unit;
  fetch_answer : nat → outcome fetch_result;
  trigger_answer : nat → outcome unit;
}.

(** The instance attributes the thread reads and writes, the number of
    interactions so far, and the events so far (latest first). *)
Record world : Type := World {
  thread_stopped : bool;
  connected_at : option Z;
  imap_error_count : Z;
  tick : nat;
  trace : list event;
}.

(** The state set up by [__init__]. *)
Definition init : world := {|
  thread_stopped := false;
  connected_at := None;
  imap_error_count := 0;
  tick := 0;
  trace := [];
|}.

Definition set_thread_stopped (b : bool) (w : world) : world :=
  World b (connected_at w) (imap_error_count w) (tick w) (trace w).
Definition set_connected_at (t : option Z) (w : world) : world :=
  World (thread_stopped w) t (imap_error_count w) (tick w) (trace w).
Definition set_imap_error_count (n : Z) (w : world) : world :=
  World (thread_stopped w) (connected_at w) n (tick w) (trace w).
Definition next_tick (w : world) : world :=
  World (thread_stopped w) (connected_at w) (imap_error_count w)
        (S (tick w)) (trace w).
Definition record (e : event) (w : world) : world :=
  World (thread_stopped w) (connected_at w) (imap_error_count w)
        (tick w) (e :: trace w).

(** ** Computations: state, exceptions, and loops cut off by fuel

    A computation returns [None] when a [while True] loop was cut off by the
    fuel of the model, otherwise the Python outcome. *)
Definition M (A : Type) : Type := world → option (outcome A) * world.

#[global] Instance M_ret : MRet M := fun A a w => (Some (Ret a), w).
#[global] Instance M_bind : MBind M := fun A B f m w =>
  match m w with
  | (Some (Ret a), w') => f a w'
  | (Some (Raise e), w') => (Some (Raise e), w')
  | (None, w') => (None, w')
  end.

Definition raise {A} (e : exn) : M A := fun w => (Some (Raise e), w).
Definition out_of_fuel {A} : M A := fun w => (None, w).
Definition lift {A} (o : outcome A) : M A := fun w => (Some o, w).
Definition get {A} (f : world → A) : M A := fun w => (Some (Ret (f w)), w).
Definition modify (f : world → world) : M unit := fun w => (Some (Ret ()), f w).
Definition emit (e : event) : M unit := modify (record e).
Definition log (m : message) : M unit := emit (Log m).

(** [try: m  except <clauses>]: [handler] tells which exceptions the clauses
    catch and what they do. *)
Definition catch {A} (m : M A) (handler : exn → option (M A)) : M A := fun w =>
  match m w with
  | (Some (Raise e), w') =>
      match handler e with
      | Some h => h w'
      | None => (Some (Raise e), w')
      end
  | r => r
  end.

(** [except Exception as ex: h ex]. *)
Definition on_Exception {A} (h : exn → M A) (e : exn) : option (M A) :=
  if is_Exception e then Some (h e) else None.

(** [try: m  finally: fin]: [fin] runs however [m] ended; what it raises
    replaces the outcome of [m]. *)
Definition finally {A} (m : M A) (fin : M unit) : M A := fun w =>
  match m w with
  | (None, w') => (None, w')
  | (Some r, w') =>
      match fin w' with
      | (Some (Ret _), w'') => (Some r, w'')
      | (Some (Raise e), w'') => (Some (Raise e), w'')
      | (None, w'') => (None, w'')
      end
  end.

(** [try: m  except Exception: pass]. *)
Definition swallow (m : M unit) : M unit :=
  catch m (on_Exception (fun _ => mret ())).

(** Running [m] and handing its outcome over as a value, for a [try] whose
    clauses leave by [continue] or [return]. *)
Definition reify {A} (m : M A) : M (outcome A) := fun w =>
  match m w with
  | (Some r, w') => (Some (Ret r), w')
  | (None, w') => (None, w')
  end.

(** How an iteration of a loop leaves its body. *)
Inductive signal : Type := Continue | Break | Return.

(** ** The handler *)

Section Handler.

Context (cfg : config) (env : environment).

(** *** Calls to the collaborators *)

(** One interaction: the environment's answer to it is recorded. *)
Definition call {A} (answer : nat → outcome A) (ev : outcome A → event)
  : M A := fun w =>
  let r := answer (tick w) in (Some r, next_tick (record (ev r) w)).

(** Reading [self.__thread_stopped], which [stop()] sets from the
    controlling thread. *)
Definition read_thread_stopped : M bool := fun w =>
  let b := thread_stopped w || stop_requested env (tick w) in
  (Some (Ret b), next_tick (set_thread_stopped b w)).

(** [self.__connector.connect(select_folder=..., select_folder_readonly=...)] *)
Definition connect (select_folder : string) (select_folder_readonly : bool)
  : M client := fun w =>
  let r := match connect_answer env (tick w) with
           | Ret _ => Ret (tick w)
           | Raise e => Raise e
           end in
  (Some r, next_tick (record (Connect select_folder select_folder_readonly r) w)).

(** [int(time())] *)
Definition time : M Z := fun w =>
  let now := clock env (tick w) in
  (Some (Ret now), next_tick (record (Time now) w)).

(** [sleep(seconds)] *)
Definition sleep (seconds : Z) : M unit := emit (Sleep seconds).

Definition idle_ (c : client) : M unit := call (idle_answer env) (Idle c).
Definition idle_check (c : client) (timeout : Z) : M pyval :=
  call (idle_check_answer env) (IdleCheck c timeout).
Definition idle_done (c : client) : M unit :=
  call (idle_done_answer env) (IdleDone c).
Definition logout (c : client) : M unit :=
  call (logout_answer env) (Logout c).
Definition fetch (c : client) (message_number : pyval) : M fetch_result :=
  call (fetch_answer env) (Fetch c message_number).
Definition trigger_new_message_command (envelope : pyval) : M unit :=
  call (trigger_answer env) (Trigger envelope).

(** *** Dictionary access on a fetch result *)

(** Whether [hash(v)] is defined. *)
Fixpoint hashable (v : pyval) : bool :=
  match v with
  | PyList _ => false
  | PyTuple l | PyNamedTuple l => forallb hashable l
  | _ => true
  end.

(** The integer key a value is equal to, if any: [True == 1], [False == 0].
    An unhashable value cannot be looked up at all. *)
Definition int_key (v : pyval) : outcome (option Z) :=
  if negb (hashable v) then Raise TypeError else
  match v with
  | PyInt n => Ret (Some n)
  | PyBool b => Ret (Some (if b then 1 else 0))
  | _ => Ret None
  end.

(** [message_number in result] and [result[message_number]]. *)
Definition lookup_message (result : fetch_result) (message_number : pyval)
  : outcome (option (gmap string pyval)) :=
  k ← int_key message_number;
  Ret (k ≫= fun n => result !! n).

(** *** [__get_message_envelope], lines 300-338 *)

Definition ENVELOPE : string := "ENVELOPE"%string.

Definition get_message_envelope (message_number : pyval) : M pyval :=
  (* client = None; the assignment in the try happens iff connect returns *)
  connected ← reify (connect (folder cfg) true);
  finally
    (catch
       (c ← lift connected;
        result ← fetch c message_number;
        found ← lift (lookup_message result message_number);
        match found with
        | None => log (NoDataFound message_number);; mret PyNone
        | Some message_result =>
            match message_result !! ENVELOPE with
            | None => log (NoEnvelopeFound message_number);; mret PyNone
            | Some envelope => mret envelope
            end
        end)
       (on_Exception (fun ex =>
          log (SeparateConnectionFailed ex);; mret PyNone)))
    (swallow
       match connected with
       | Ret c => logout c      (* if client: client.logout() *)
       | Raise _ => mret ()
       end).

(** *** [__idle_loop], lines 212-237 *)

Definition idle_loop (c : client) : M unit :=
  responses ← idle_check c (SECONDS_TO_WAIT_FOR_IDLE_RESPONSE cfg);
  if negb (truthy responses) then mret () else
  log (Received responses);;
  message_nr ← lift (get_new_message_number responses (ignoreRecentFlag cfg));
  if negb (truthy message_nr) then mret () else
  log (FetchingEnvelope message_nr);;
  envelope ← get_message_envelope message_nr;
  if negb (truthy envelope) then mret () else
  catch (trigger_new_message_command envelope)
        (on_Exception (fun ex => log (CallbackFailed ex))).

(** *** [__idle_client], lines 161-210 *)

(** Lines 195-203: one check cycle and the reset of the error counter. *)
Definition check_cycle (c : client) : M signal :=
  catch
    (idle_loop c;;
     modify (set_imap_error_count 0);;
     mret Continue)
    (fun ex =>
       match ex with
       | KeyboardInterrupt =>
           Some (log StoppedByKeyboard;;
                 modify (set_thread_stopped true);;
                 mret Break)
       | _ => on_Exception (fun ex => raise (Exception "IDLE check failed." ex)) ex
       end).

(** Lines 188-193: whether the session is due for renewal. *)
Definition reconnection_due : M bool :=
  if 0 <? SECONDS_TO_RECONNECT_AFTER cfg then
    now ← time;
    started ← get connected_at;
    match started with
    | None => raise TypeError
    | Some t0 =>
        let age := now - t0 in
        if SECONDS_TO_RECONNECT_AFTER cfg <? age
        then log EnforceReconnection;; mret true
        else mret false
    end
  else mret false.

(** Lines 184-203: the [while True] of the IDLE session. *)
Fixpoint idle_client_loop (fuel : nat) (c : client) : M unit :=
  match fuel with
  | O => out_of_fuel
  | S fuel' =>
      stopped ← read_thread_stopped;
      if stopped : bool then mret () else
      due ← reconnection_due;
      if due : bool then mret () else
      s ← check_cycle c;
      match s with
      | Continue => idle_client_loop fuel' c
      | _ => mret ()
      end
  end.

(** Lines 204-210: leaving IDLE mode, errors ignored. *)
Definition leave_idle (c : client) : M unit :=
  swallow (log LeavingIdle;; idle_done c).

(** Lines 182-210: the wait loop and what follows it on every exit. *)
Definition idle_client_wait (fuel : nat) (c : client) : M unit :=
  finally (idle_client_loop fuel c) (leave_idle c).

(** Lines 174-180: entering IDLE mode. *)
Definition enter_idle (c : client) : M unit :=
  catch
    (log EnterIdle;;
     now ← time;
     modify (set_connected_at (Some now));;
     idle_ c)
    (on_Exception (fun ex => raise (Exception "IDLE mode failed." ex))).

Definition idle_client (fuel : nat) (c : client) : M unit :=
  stopped ← read_thread_stopped;
  if stopped : bool then mret () else
  enter_idle c;;
  idle_client_wait fuel c.

(** *** [__idle], lines 101-159 *)

(** Lines 122-133 and, word for word, 140-151: the error budget and the
    pause before the next attempt. *)
Definition on_failure : M signal :=
  exhausted ←
    (if 0 <? MAX_IMAP_ERROR_COUNT cfg then
       modify (fun w => set_imap_error_count (imap_error_count w + 1) w);;
       errors ← get imap_error_count;
       if MAX_IMAP_ERROR_COUNT cfg <? errors
       then log (LeavingThread errors);; mret true
       else mret false
     else mret false);
  if exhausted : bool then mret Return else
  (if 0 <? SECONDS_TO_WAIT_AFTER_ERROR cfg
   then sleep (SECONDS_TO_WAIT_AFTER_ERROR cfg)
   else mret ());;
  mret Continue.

(** Lines 135-159: a session under the [try] of the main loop, the session
    being closed on every exit. *)
Definition supervised (session : M unit) (c : client) : M signal :=
  finally
    (catch (session;; mret Continue)
           (on_Exception (fun ex => log (IdleFailed ex);; on_failure)))
    (swallow (logout c)).

(** Lines 119-159: what follows the attempt to connect. *)
Definition after_connect (fuel : nat) (connected : outcome client) : M signal :=
  match connected with
  | Raise ex =>
      if is_Exception ex
      then log (ConnectionFailed ex);; on_failure
      else raise ex
  | Ret c => supervised (idle_client fuel c) c
  end.

(** Lines 110-159: the body of the [while True] of the worker. *)
Definition idle_iteration (fuel : nat) : M signal :=
  stopped ← read_thread_stopped;
  if stopped : bool then log ThreadStopped;; mret Break else
  connected ← reify (connect (folder cfg) true);
  after_connect fuel connected.

(** The worker: at most [rounds] iterations of the main loop, each IDLE
    session being given [fuel] check cycles. *)
Fixpoint idle (fuel rounds : nat) : M unit :=
  match rounds with
  | O => out_of_fuel
  | S rounds' =>
      s ← idle_iteration fuel;
      match s with
      | Continue => idle fuel rounds'
      | _ => mret ()
      end
  end.

End Handler.

(** ** Observations on the events *)

(** How many of the events satisfy [p]. *)
Fixpoint occurrences (p : event → bool) (tr : list event) : nat :=
  match tr with
  | [] => 0
  | e :: tr' => ((if p e then 1 else 0) + occurrences p tr')%nat
  end.

(** The two failures the main loop handles: 'Connection failed.' and
    'IDLE failed.' *)
Definition is_failure (e : event) : bool :=
  match e with
  | Log (ConnectionFailed _) | Log (IdleFailed _) => true
  | _ => false
  end.

(** An [idle_check] that came back with an answer. *)
Definition is_completed_check (e : event) : bool :=
  match e with
  | IdleCheck _ _ (Ret _) => true
  | _ => false
  end.

Definition is_sleep (e : event) : bool :=
  match e with Sleep _ => true | _ => false end.

Definition failures (w : world) : nat := occurrences is_failure (trace w).
Definition completed_checks (w : world) : nat :=
  occurrences is_completed_check (trace w).
Definition sleeps (w : world) : nat := occurrences is_sleep (trace w).

(** The attributes of the handler are what they were. *)
Definition same_attributes (w w' : world) : Prop :=
  thread_stopped w' = thread_stopped w ∧
  connected_at w' = connected_at w ∧
  imap_error_count w' = imap_error_count w.

(** A step that adds none of the observed events and leaves the error
    counter alone. *)
Definition neutral (w w' : world) : Prop :=
  failures w' = failures w ∧
  sleeps w' = sleeps w ∧
  completed_checks w' = completed_checks w ∧
  imap_error_count w' = imap_error_count w.

(** What an IDLE session, run from [w] to [w'] with outcome [r], may do to
    the error counter and to the events: it neither logs one of the two
    failures nor sleeps; it leaves the counter alone unless a check came
    back, and then the counter is zero if the session ends in a failure. *)
Definition session_post (w : world) (r : option (outcome unit)) (w' : world)
  : Prop :=
  failures w' = failures w ∧
  sleeps w' = sleeps w ∧
  (completed_checks w ≤ completed_checks w')%nat ∧
  (imap_error_count w' = imap_error_count w ∨ imap_error_count w' = 0) ∧
  (completed_checks w' = completed_checks w →
   imap_error_count w' = imap_error_count w) ∧
  (∀ e, r = Some (Raise e) → is_Exception e = true →
        completed_checks w' ≠ completed_checks w → imap_error_count w' = 0).

(** No collaborator raises [KeyboardInterrupt]: the interpreter delivers it
    to the main thread only, and the handler runs in a thread of its own. *)
Definition uninterrupted (env : environment) : Prop :=
  ∀ t : nat,
    connect_answer env t ≠ Raise KeyboardInterrupt ∧
    idle_answer env t ≠ Raise KeyboardInterrupt ∧
    idle_check_answer env t ≠ Raise KeyboardInterrupt ∧
    idle_done_answer env t ≠ Raise KeyboardInterrupt ∧
    logout_answer env t ≠ Raise KeyboardInterrupt ∧
    fetch_answer env t ≠ Raise KeyboardInterrupt ∧
    trigger_answer env t ≠ Raise KeyboardInterrupt.

(** ** The tops of the wait loop *)

(** [w] is a top of the wait loop of an IDLE session on [c] entered when
    the clock read [t0]: lines 171-180 found no stop requested and entered
    IDLE mode with the clock at [t0], and every iteration of the loop since
    (lines 185-197) went on to the next. *)
Inductive idling_since (cfg : config) (env : environment) (c : client)
    (t0 : Z) : world → Prop :=
| idle_entered w0 w1 w :
    read_thread_stopped env w0 = (Some (Ret false), w1) →
    clock env (tick w1) = t0 →
    enter_idle env c w1 = (Some (Ret ()), w) →
    idling_since cfg env c t0 w
| idle_checked w wa wb w' :
    idling_since cfg env c t0 w →
    read_thread_stopped env w = (Some (Ret false), wa) →
    reconnection_due cfg env wa = (Some (Ret false), wb) →
    check_cycle cfg env c wb = (Some (Ret Continue), w') →
    idling_since cfg env c t0 w'.

(** ** Environments and configurations used as examples *)

(** A server that answers every call, with nothing to report. *)
Definition quiet : environment := {|
  stop_requested := fun _ => false;
  connect_answer := fun _ => Ret ();
  idle_answer := fun _ => Ret ();
  clock := fun _ => 0;
  idle_check_answer := fun _ => Ret (PyList []);
  idle_done_answer := fun _ => Ret ();
  logout_answer := fun _ => Ret ();
  fetch_answer := fun _ => Ret ∅;
  trigger_answer := fun _ => Ret ();
|}.

(** A server that refuses every connection. *)
Definition unreachable : environment := {|
  stop_requested := fun _ => false;
  connect_answer := fun _ => Raise (LibraryError "connection refused");
  idle_answer := fun _ => Ret ();
  clock := fun _ => 0;
  idle_check_answer := fun _ => Ret (PyList []);
  idle_done_answer := fun _ => Ret ();
  logout_answer := fun _ => Ret ();
  fetch_answer := fun _ => Ret ∅;
  trigger_answer := fun _ => Ret ();
|}.

(** A server that accepts connections and IDLE mode, and then drops the
    line at every wait. *)
Definition dropping : environment := {|
  stop_requested := fun _ => false;
  connect_answer := fun _ => Ret ();
  idle_answer := fun _ => Ret ();
  clock := fun _ => 0;
  idle_check_answer := fun _ => Raise (LibraryError "socket closed");
  idle_done_answer := fun _ => Raise (LibraryError "socket closed");
  logout_answer := fun _ => Raise (LibraryError "socket closed");
  fetch_answer := fun _ => Ret ∅;
  trigger_answer := fun _ => Ret ();
|}.

Definition with_budget (n : Z) : config := {|
  MAX_IMAP_ERROR_COUNT := n;
  SECONDS_TO_WAIT_AFTER_ERROR := 60;
  SECONDS_TO_RECONNECT_AFTER := 600;
  SECONDS_TO_WAIT_FOR_IDLE_RESPONSE := 15;
  folder := "INBOX";
  ignoreRecentFlag := false;
|}.

(** The defaults, renewal of the session switched off. *)
Definition without_renewal : config := {|
  MAX_IMAP_ERROR_COUNT := 0;
  SECONDS_TO_WAIT_AFTER_ERROR := 60;
  SECONDS_TO_RECONNECT_AFTER := 0;
  SECONDS_TO_WAIT_FOR_IDLE_RESPONSE := 15;
  folder := "INBOX";
  ignoreRecentFlag := false;
|}.

(** The defaults, in relaxed mode. *)
Definition relaxed : config := {|
  MAX_IMAP_ERROR_COUNT := 0;
  SECONDS_TO_WAIT_AFTER_ERROR := 60;
  SECONDS_TO_RECONNECT_AFTER := 600;
  SECONDS_TO_WAIT_FOR_IDLE_RESPONSE := 15;
  folder := "INBOX";
  ignoreRecentFlag := true;
|}.

(** A quiet server seen by a worker that is slow: a thousand seconds go by
    between two of its interactions. *)
Definition late : environment := {|
  stop_requested := fun _ => false;
  connect_answer := fun _ => Ret ();
  idle_answer := fun _ => Ret ();
  clock := fun t => 1000 * Z.of_nat t;
  idle_check_answer := fun _ => Ret (PyList []);
  idle_done_answer := fun _ => Ret ();
  logout_answer := fun _ => Ret ();
  fetch_answer := fun _ => Ret ∅;
  trigger_answer := fun _ => Ret ();
|}.

Definition sample_envelope : pyval :=
  PyNamedTuple [PyBytes "Mon, 2 Jan 2023 10:00:00 +0000"; PyBytes "hello"].

(** A server announcing message 42, and a callback that fails. *)
Definition failing_callback : environment := {|
  stop_requested := fun _ => false;
  connect_answer := fun _ => Ret ();
  idle_answer := fun _ => Ret ();
  clock := fun _ => 0;
  idle_check_answer := fun _ => Ret (encode [(42, EXISTS); (1, RECENT)]);
  idle_done_answer := fun _ => Ret ();
  logout_answer := fun _ => Ret ();
  fetch_answer := fun _ => Ret {[ 42 := {[ ENVELOPE := sample_envelope ]} ]};
  trigger_answer := fun _ => Raise (LibraryError "command failed");
|}.

(** A server announcing that a message exists at sequence number 0. *)
Definition announcing_zero : environment := {|
  stop_requested := fun _ => false;
  connect_answer := fun _ => Ret ();
  idle_answer := fun _ => Ret ();
  clock := fun _ => 0;
  idle_check_answer := fun _ => Ret (encode [(0, EXISTS)]);
  idle_done_answer := fun _ => Ret ();
  logout_answer := fun _ => Ret ();
  fetch_answer := fun _ => Ret {[ 0 := {[ ENVELOPE := sample_envelope ]} ]};
  trigger_answer := fun _ => Ret ();
|}.

(** A worker in IDLE mode since time 0, at the top of its wait loop, with
    three errors counted. *)
Definition idling : world := {|
  thread_stopped := false;
  connected_at := Some 0;
  imap_error_count := 3;
  tick := 5;
  trace := [];
|}.

(** ** Further observations: sessions, IDLE mode, dispatches *)

(** A session was opened. *)
Definition is_opened (e : event) : bool :=
  match e with Connect _ _ (Ret _) => true | _ => false end.

(** A session was closed ([logout] was called on it). *)
Definition is_closed (e : event) : bool :=
  match e with Logout _ _ => true | _ => false end.

(** IDLE mode was entered. *)
Definition is_entered (e : event) : bool :=
  match e with Idle _ (Ret _) => true | _ => false end.

(** IDLE mode was left ([idle_done] was called). *)
Definition is_left (e : event) : bool :=
  match e with IdleDone _ _ => true | _ => false end.

(** The callback was invoked. *)
Definition is_dispatch (e : event) : bool :=
  match e with Trigger _ _ => true | _ => false end.

(** A connection asked for another folder than the configured one, or not
    read-only. *)
Definition is_stray_connect (cfg : config) (e : event) : bool :=
  match e with
  | Connect f readonly _ =>
      negb (bool_decide (f = folder cfg) && readonly)
  | _ => false
  end.

Definition opened (w : world) : nat := occurrences is_opened (trace w).
Definition closed (w : world) : nat := occurrences is_closed (trace w).
Definition entered (w : world) : nat := occurrences is_entered (trace w).
Definition left_idle (w : world) : nat := occurrences is_left (trace w).
Definition dispatches (w : world) : nat := occurrences is_dispatch (trace w).
Definition stray_connects (cfg : config) (w : world) : nat :=
  occurrences (is_stray_connect cfg) (trace w).

(** What every part of the worker keeps: a stop flag that is set stays
    set, no connection but to the configured folder, read-only, and an
    error counter that does not go below zero. *)
Definition tidy (cfg : config) (w w' : world) : Prop :=
  (thread_stopped w = true → thread_stopped w' = true) ∧
  stray_connects cfg w' = stray_connects cfg w ∧
  (0 ≤ imap_error_count w → 0 ≤ imap_error_count w').

(** As many sessions were closed as were opened between [w] and [w']. *)
Definition sessions_balanced (w w' : world) : Prop :=
  (opened w' + closed w = opened w + closed w')%nat.

(** IDLE mode was left as many times as it was entered. *)
Definition idle_balanced (w w' : world) : Prop :=
  (entered w' + left_idle w = entered w + left_idle w')%nat.

(** What happens inside an IDLE session: the worker stays tidy, opens
    secondary sessions only to close them, and neither enters nor leaves
    IDLE mode. *)
Definition inner_step (cfg : config) (w w' : world) : Prop :=
  tidy cfg w w' ∧ sessions_balanced w w' ∧
  entered w' = entered w ∧ left_idle w' = left_idle w.

(** ** More environments used as examples *)

(** A server whose line holds for one wait and then drops. *)
Definition flaky : environment := {|
  stop_requested := fun _ => false;
  connect_answer := fun _ => Ret ();
  idle_answer := fun _ => Ret ();
  clock := fun _ => 0;
  idle_check_answer := fun t =>
    if (t <=? 7)%nat then Ret (PyList [])
    else Raise (LibraryError "socket closed");
  idle_done_answer := fun _ => Ret ();
  logout_answer := fun _ => Ret ();
  fetch_answer := fun _ => Ret ∅;
  trigger_answer := fun _ => Ret ();
|}.

(** A quiet server, and a controller that has called [stop()]. *)
Definition stop_called : environment := {|
  stop_requested := fun _ => true;
  connect_answer := fun _ => Ret ();
  idle_answer := fun _ => Ret ();
  clock := fun _ => 0;
  idle_check_answer := fun _ => Ret (PyList []);
  idle_done_answer := fun _ => Ret ();
  logout_answer := fun _ => Ret ();
  fetch_answer := fun _ => Ret ∅;
  trigger_answer := fun _ => Ret ();
|}.

(** A wait that is interrupted from the keyboard. *)
Definition interrupting : environment := {|
  stop_requested := fun _ => false;
  connect_answer := fun _ => Ret ();
  idle_answer := fun _ => Ret ();
  clock := fun _ => 0;
  idle_check_answer := fun _ => Raise KeyboardInterrupt;
  idle_done_answer := fun _ => Ret ();
  logout_answer := fun _ => Ret ();
  fetch_answer := fun _ => Ret ∅;
  trigger_answer := fun _ => Ret ();
|}.

(** A server that accepts connections and refuses IDLE mode. *)
Definition refusing_idle : environment := {|
  stop_requested := fun _ => false;
  connect_answer := fun _ => Ret ();
  idle_answer := fun _ => Raise (LibraryError "IDLE not supported");
  clock := fun _ => 0;
  idle_check_answer := fun _ => Ret (PyList []);
  idle_done_answer := fun _ => Ret ();
  logout_answer := fun _ => Ret ();
  fetch_answer := fun _ => Ret ∅;
  trigger_answer := fun _ => Ret ();
|}.

(** A server announcing message 42, and a callback that works. *)
Definition delivering : environment := {|
  stop_requested := fun _ => false;
  connect_answer := fun _ => Ret ();
  idle_answer := fun _ => Ret ();
  clock := fun _ => 0;
  idle_check_answer := fun _ => Ret (encode [(42, EXISTS); (1, RECENT)]);
  idle_done_answer := fun _ => Ret ();
  logout_answer := fun _ => Ret ();
  fetch_answer := fun _ => Ret {[ 42 := {[ ENVELOPE := sample_envelope ]} ]};
  trigger_answer := fun _ => Ret ();
|}.

(** A quiet server, and a controller that calls [stop()] while the worker
    is connecting. *)
Definition stop_after_connect : environment := {|
  stop_requested := fun t => (2 <=? t)%nat;
  connect_answer := fun _ => Ret ();
  idle_answer := fun _ => Ret ();
  clock := fun _ => 0;
  idle_check_answer := fun _ => Ret (PyList []);
  idle_done_answer := fun _ => Ret ();
  logout_answer := fun _ => Ret ();
  fetch_answer := fun _ => Ret ∅;
  trigger_answer := fun _ => Ret ();
|}.

(** * Properties *)

(** ** The response parser *)

Section Parser.

Lemma length_ltb_false {A} (l : list A) (n : Z) :
  n ≤ Z.of_nat (length l) → (Z.of_nat (length l) <? n) = false.
Proof. intros. apply Z.ltb_ge. lia. Qed.

Lemma index_items_0 (x : pyval) (l : list pyval) :
  index_items (x :: l) 0 = Ret x.
Proof. reflexivity. Qed.

Lemma index_items_1 (x y : pyval) (l : list pyval) :
  index_items (x :: y :: l) 1 = Ret y.
Proof. reflexivity. Qed.

Ltac parse_step :=
  first
    [ rewrite index_items_0
    | rewrite index_items_1
    | rewrite length_ltb_false by (cbn [length]; lia)
    | progress cbn [mbind outcome_bind negb type_is_list type_is_tuple
                    len getitem and_then] ].

(** What the strict parser computes, on any value. *)
Lemma strict_parse (responses : pyval) :
  get_new_message_number responses false =
  Ret match responses with
      | PyList (PyTuple (t1 :: k1 :: _) :: PyTuple (t2 :: k2 :: _) :: _) =>
          if eq_bytes k1 EXISTS && eq_bytes k2 RECENT then t1
          else if eq_bytes k2 EXISTS && eq_bytes k1 RECENT then t2
          else PyNone
      | _ => PyNone
      end.
Proof.
  destruct responses as [| | | | | |items|]; try reflexivity.
  destruct items as [|r1 [|r2 rest]]; try reflexivity.
  { destruct r1 as [| | | | |[|? [|? ?]]| |]; reflexivity. }
  unfold get_new_message_number.
  destruct r1 as [| | | | |[|t1 [|k1 r1']]| |];
    try (repeat parse_step; reflexivity).
  destruct r2 as [| | | | |[|t2 [|k2 r2']]| |];
    try (repeat parse_step; reflexivity).
  repeat parse_step.
  destruct (eq_bytes k1 EXISTS), (eq_bytes k2 RECENT),
    (eq_bytes k2 EXISTS), (eq_bytes k1 RECENT);
    repeat parse_step; reflexivity.
Qed.

(** What the relaxed parser computes, on any value. *)
Lemma relaxed_parse (responses : pyval) :
  get_new_message_number responses true =
  Ret match responses with
      | PyList (PyTuple (t1 :: k1 :: _) :: _) =>
          if eq_bytes k1 EXISTS then t1 else PyNone
      | _ => PyNone
      end.
Proof.
  destruct responses as [| | | | | |items|]; try reflexivity.
  destruct items as [|r1 rest]; try reflexivity.
  unfold get_new_message_number.
  destruct r1 as [| | | | |[|t1 [|k1 r1']]| |];
    try (repeat parse_step; reflexivity).
  repeat parse_step.
  destruct (eq_bytes k1 EXISTS); repeat parse_step; reflexivity.
Qed.

Lemma encode_parse_strict (raw : notification) :
  get_new_message_number (encode raw) false =
  Ret match raw with
      | (t1, k1) :: (t2, k2) :: _ =>
          if bool_decide (k1 = EXISTS) && bool_decide (k2 = RECENT)
          then PyInt t1
          else if bool_decide (k2 = EXISTS) && bool_decide (k1 = RECENT)
          then PyInt t2
          else PyNone
      | _ => PyNone
      end.
Proof.
  rewrite strict_parse.
  destruct raw as [|[t1 k1] [|[t2 k2] rest]]; reflexivity.
Qed.

Lemma encode_parse_relaxed (raw : notification) :
  get_new_message_number (encode raw) true =
  Ret match raw with
      | (t1, k1) :: _ => if bool_decide (k1 = EXISTS) then PyInt t1 else PyNone
      | _ => PyNone
      end.
Proof.
  rewrite relaxed_parse. destruct raw as [|[t1 k1] rest]; reflexivity.
Qed.

(** C2.  Strict mode ([ignoreRecentFlag] false): on a raw notification the
    parser returns the sequence number [n] exactly when the list has at
    least two pairs of which the first two carry EXISTS and RECENT, in
    either order, [n] being the tag paired with EXISTS; in every other case
    it returns [None]; [(275, EXISTS), (1, RECENT)] and
    [(1, RECENT), (275, EXISTS)] give 275, [(275, EXISTS)] alone and the
    empty list give [None]. *)
Theorem strict_mode_first_two_pairs :
  (∀ (raw : notification) (n : Z),
     get_new_message_number (encode raw) false = Ret (PyInt n) ↔
     ∃ t1 k1 t2 k2 rest,
       raw = (t1, k1) :: (t2, k2) :: rest ∧
       ((k1 = EXISTS ∧ k2 = RECENT ∧ n = t1) ∨
        (k2 = EXISTS ∧ k1 = RECENT ∧ n = t2))) ∧
  (∀ raw : notification,
     get_new_message_number (encode raw) false = Ret PyNone ∨
     ∃ n, get_new_message_number (encode raw) false = Ret (PyInt n)) ∧
  get_new_message_number (encode [(275, EXISTS); (1, RECENT)]) false
    = Ret (PyInt 275) ∧
  get_new_message_number (encode [(1, RECENT); (275, EXISTS)]) false
    = Ret (PyInt 275) ∧
  get_new_message_number (encode [(275, EXISTS)]) false = Ret PyNone ∧
  get_new_message_number (encode []) false = Ret PyNone.
Proof.
  split; [|split; [|repeat split; reflexivity]].
  - intros raw n. rewrite encode_parse_strict. split.
    + destruct raw as [|[t1 k1] [|[t2 k2] rest]]; try discriminate.
      intros H. exists t1, k1, t2, k2, rest. split; [reflexivity|].
      destruct (bool_decide (k1 = EXISTS) && bool_decide (k2 = RECENT)) eqn:E1.
      * apply andb_prop in E1 as [?%bool_decide_eq_true ?%bool_decide_eq_true].
        left. repeat split; congruence.
      * destruct (bool_decide (k2 = EXISTS) && bool_decide (k1 = RECENT)) eqn:E2;
          [|discriminate].
        apply andb_prop in E2 as [?%bool_decide_eq_true ?%bool_decide_eq_true].
        right. repeat split; congruence.
    + intros (t1 & k1 & t2 & k2 & rest & -> & [(-> & -> & ->)|(-> & -> & ->)]);
        reflexivity.
  - intros raw. rewrite encode_parse_strict.
    destruct raw as [|[t1 k1] [|[t2 k2] rest]]; eauto.
    repeat case_match; eauto.
Qed.

(** C3.  Relaxed mode ([ignoreRecentFlag] true): on a raw notification the
    parser returns [n] exactly when the first pair is [(n, EXISTS)], and
    [None] otherwise; [(275, EXISTS)] gives 275, [(1, RECENT)] alone and the
    empty list give [None]; and whatever the value, anything but a list
    whose first element is a tuple of at least two items with the keyword
    EXISTS (a non-list, a non-tuple first element, a tuple shorter than
    two) gives [None]. *)
Theorem relaxed_mode_first_pair :
  (∀ (raw : notification) (n : Z),
     get_new_message_number (encode raw) true = Ret (PyInt n) ↔
     ∃ rest, raw = (n, EXISTS) :: rest) ∧
  (∀ raw : notification,
     get_new_message_number (encode raw) true = Ret PyNone ∨
     ∃ n, get_new_message_number (encode raw) true = Ret (PyInt n)) ∧
  get_new_message_number (encode [(275, EXISTS)]) true = Ret (PyInt 275) ∧
  get_new_message_number (encode [(1, RECENT)]) true = Ret PyNone ∧
  get_new_message_number (encode []) true = Ret PyNone ∧
  (∀ responses : pyval,
     get_new_message_number responses true = Ret PyNone ∨
     ∃ tag keyword more rest,
       responses = PyList (PyTuple (tag :: keyword :: more) :: rest) ∧
       keyword = PyBytes EXISTS ∧
       get_new_message_number responses true = Ret tag).
Proof.
  split; [|split; [|repeat split; try reflexivity]].
  - intros raw n. rewrite encode_parse_relaxed. split.
    + destruct raw as [|[t1 k1] rest]; try discriminate.
      destruct (bool_decide (k1 = EXISTS)) eqn:E; [|discriminate].
      apply bool_decide_eq_true in E. intros [= ->]. subst. eauto.
    + intros [rest ->]. reflexivity.
  - intros raw. rewrite encode_parse_relaxed.
    destruct raw as [|[t1 k1] rest]; eauto. case_match; eauto.
  - intros responses. rewrite relaxed_parse.
    destruct responses as [| | | | | |[|[| | | | |[|t [|k more]]| |] rest]|];
      eauto.
    destruct k; cbn; eauto.
    case_bool_decide; eauto. subst. right. eauto 10.
Qed.

(** C9.  The parser is a total, deterministic function of its two
    arguments that touches nothing else: on every value and in both modes
    it returns (it never raises), and run in any state of the worker it
    yields that same value and leaves the state, the interaction count and
    the events as they were. *)
Theorem parser_total_and_pure (responses : pyval) (ignoreRecentFlag : bool) :
  ∃ v : pyval,
    get_new_message_number responses ignoreRecentFlag = Ret v ∧
    ∀ w : world,
      lift (get_new_message_number responses ignoreRecentFlag) w
      = (Some (Ret v), w).
Proof.
  destruct ignoreRecentFlag.
  - rewrite relaxed_parse. eexists. split; [reflexivity|]. reflexivity.
  - rewrite strict_parse. eexists. split; [reflexivity|]. reflexivity.
Qed.

End Parser.

(** ** Symbolic execution of the handler *)

Ltac run :=
  cbv [finally catch reify swallow on_Exception lift raise out_of_fuel get
       connect fetch logout idle_check idle_done idle_ time sleep
       trigger_new_message_command read_thread_stopped
       call log emit modify mbind M_bind mret M_ret].

Ltac observe :=
  cbv [same_attributes neutral failures completed_checks sleeps] in *;
  cbn [thread_stopped connected_at imap_error_count tick trace
       next_tick record set_thread_stopped set_connected_at
       set_imap_error_count occurrences is_failure is_completed_check
       is_sleep Nat.add] in *.

Section Steps.

Context (cfg : config) (env : environment).

Lemma get_new_message_number_returns (responses : pyval) (flag : bool) :
  ∃ v, get_new_message_number responses flag = Ret v.
Proof.
  destruct flag; [rewrite relaxed_parse | rewrite strict_parse]; eauto.
Qed.

(** The envelope fetcher leaves the attributes alone, adds none of the
    observed events, always comes back, and lets no [Exception] through. *)
Lemma get_message_envelope_post nr w r w' :
  get_message_envelope cfg env nr w = (r, w') →
  same_attributes w w' ∧ failures w' = failures w ∧
  completed_checks w' = completed_checks w ∧ sleeps w' = sleeps w ∧
  ∃ o, r = Some o ∧ ∀ e, o = Raise e → is_Exception e = false.
Proof.
  unfold get_message_envelope. run. intros H.
  repeat case_match; simplify_eq; observe;
    (repeat split; eauto; eexists; split; [reflexivity|]; intros; simplify_eq; done).
Qed.

(** One check cycle's wait and check: attributes untouched, no failure
    logged, no sleep; it comes back normally only after a completed check,
    and it raises an [Exception] only when the check itself failed. *)
Lemma idle_loop_post c w r w' :
  idle_loop cfg env c w = (r, w') →
  same_attributes w w' ∧ failures w' = failures w ∧ sleeps w' = sleeps w ∧
  match r with
  | None => False
  | Some (Ret _) => completed_checks w' = S (completed_checks w)
  | Some (Raise e) =>
      if is_Exception e then completed_checks w' = completed_checks w
      else (completed_checks w ≤ completed_checks w')%nat
  end.
Proof.
  unfold idle_loop. run. intros H.
  destruct (idle_check_answer env (tick w)) as [responses|e] eqn:Hcheck.
  2:{ simplify_eq. observe. rewrite ?Hcheck. destruct (is_Exception e); auto. }
  destruct (get_new_message_number_returns responses (ignoreRecentFlag cfg))
    as [nr Hnr].
  rewrite Hnr in H.
  destruct (negb (truthy responses)).
  { simplify_eq. observe. rewrite ?Hcheck. auto. }
  destruct (negb (truthy nr)).
  { simplify_eq. observe. rewrite ?Hcheck. auto. }
  destruct (get_message_envelope _ _ _ _) as [r1 w1] eqn:Hfetch.
  apply get_message_envelope_post in Hfetch
    as ((? & ? & ?) & ? & ? & ? & o & -> & Ho).
  observe. rewrite ?Hcheck in *.
  destruct o as [envelope|e].
  2:{ simplify_eq. rewrite (Ho e eq_refl). repeat split; auto; lia. }
  destruct (negb (truthy envelope)).
  { simplify_eq. repeat split; auto; lia. }
  repeat case_match; simplify_eq; observe;
    try congruence; repeat split; auto; lia.
Qed.

(** A check cycle either goes on with the counter at zero, or was
    interrupted, or fails with the counter as it was. *)
Lemma check_cycle_post c w r w' :
  check_cycle cfg env c w = (r, w') →
  failures w' = failures w ∧ sleeps w' = sleeps w ∧
  connected_at w' = connected_at w ∧
  match r with
  | Some (Ret Continue) =>
      imap_error_count w' = 0 ∧
      completed_checks w' = S (completed_checks w) ∧
      thread_stopped w' = thread_stopped w
  | Some (Ret Break) =>
      imap_error_count w' = imap_error_count w ∧
      (completed_checks w ≤ completed_checks w')%nat
  | Some (Raise e) =>
      is_Exception e = true ∧
      imap_error_count w' = imap_error_count w ∧
      completed_checks w' = completed_checks w
  | Some (Ret Return) | None => False
  end.
Proof.
  unfold check_cycle. run. intros H.
  destruct (idle_loop _ _ _ _) as [r1 w1] eqn:Hloop.
  apply idle_loop_post in Hloop as ((? & ? & ?) & ? & ? & Hr).
  destruct r1 as [[[]|e]|]; [| |done].
  - simplify_eq. observe. repeat split; auto; congruence.
  - destruct e; cbn in H, Hr; simplify_eq; observe; repeat split; auto;
      congruence.
Qed.

Lemma reconnection_due_post w r w' :
  reconnection_due cfg env w = (r, w') →
  neutral w w' ∧
  ∃ o, r = Some o ∧ ∀ e, o = Raise e → is_Exception e = true.
Proof.
  unfold reconnection_due. run. intros H.
  repeat case_match; simplify_eq; observe;
    (split; [repeat split; auto|]); eexists; (split; [reflexivity|]);
    intros; simplify_eq; done.
Qed.

Lemma leave_idle_post c w r w' :
  leave_idle env c w = (r, w') →
  neutral w w' ∧ (r = Some (Ret ()) ∨ r = Some (Raise KeyboardInterrupt)).
Proof.
  unfold leave_idle. run. intros H.
  repeat case_match; simplify_eq; observe; (split; [repeat split; auto|]);
    auto.
  - destruct a; auto.
  - destruct e; simplify_eq; auto.
Qed.

Lemma enter_idle_post c w r w' :
  enter_idle env c w = (r, w') →
  neutral w w' ∧ r ≠ None.
Proof.
  unfold enter_idle. run. intros H.
  repeat case_match; simplify_eq; observe; (split; [repeat split; auto|]);
    done.
Qed.

Lemma session_post_neutral w w1 r w' :
  neutral w w1 → session_post w1 r w' → session_post w r w'.
Proof.
  unfold neutral, session_post.
  intros (-> & -> & -> & ->) (? & ? & ? & ? & ? & ?). auto 10.
Qed.

Lemma session_post_then_neutral w r w1 w' :
  session_post w r w1 → neutral w1 w' → session_post w r w'.
Proof.
  unfold neutral, session_post.
  intros (? & ? & ? & ? & ? & ?) (-> & -> & -> & ->). auto 10.
Qed.

Lemma session_post_refl w r : session_post w r w.
Proof. unfold session_post. repeat split; auto. done. Qed.

(** The wait loop of an IDLE session. *)
Lemma idle_client_loop_post fuel c w r w' :
  idle_client_loop cfg env fuel c w = (r, w') → session_post w r w'.
Proof.
  revert w. induction fuel as [|fuel IH]; intros w H.
  { cbv in H. simplify_eq. apply session_post_refl. }
  cbn [idle_client_loop] in H. revert H.
  unfold mbind at 1, M_bind at 1.
  destruct (read_thread_stopped env w) as [rs w1] eqn:Hs.
  assert (neutral w w1 ∧ ∃ b, rs = Some (Ret b)) as [Hn1 [stopped ->]].
  { revert Hs. run. intros; simplify_eq. observe. eauto 10. }
  intros H. eapply session_post_neutral; [exact Hn1|]. clear Hn1 Hs.
  destruct stopped.
  { cbv in H. simplify_eq. apply session_post_refl. }
  revert H. unfold mbind at 1, M_bind at 1.
  destruct (reconnection_due cfg env w1) as [rd w2] eqn:Hd.
  apply reconnection_due_post in Hd as [Hn2 (o & -> & Ho)].
  intros H. eapply session_post_neutral; [exact Hn2|]. clear Hn2.
  destruct o as [[]|e].
  { cbv in H. simplify_eq. apply session_post_refl. }
  2:{ simplify_eq. apply session_post_refl. }
  revert H. unfold mbind at 1, M_bind at 1.
  destruct (check_cycle cfg env c w2) as [rc w3] eqn:Hc.
  apply check_cycle_post in Hc as (Hf & Hsl & _ & Hc).
  destruct rc as [[[]|e]|]; try done; intros H.
  - apply IH in H. destruct Hc as (Hz & Hk & _).
    unfold session_post in *. destruct H as (? & ? & ? & ? & ? & Hr).
    repeat split; try lia; try congruence.
  - cbv in H. simplify_eq. destruct Hc. unfold session_post.
    repeat split; auto; try lia; intros; simplify_eq.
  - simplify_eq. destruct Hc as (? & ? & ?). unfold session_post.
    repeat split; auto; try lia; intros; congruence.
Qed.

Lemma idle_client_wait_post fuel c w r w' :
  idle_client_wait cfg env fuel c w = (r, w') → session_post w r w'.
Proof.
  unfold idle_client_wait, finally.
  destruct (idle_client_loop _ _ _ _ _) as [r1 w1] eqn:Hl.
  apply idle_client_loop_post in Hl.
  destruct r1 as [o|]; [|intros; simplify_eq; done].
  destruct (leave_idle _ _ _) as [r2 w2] eqn:Hd.
  apply leave_idle_post in Hd as [Hn [-> | ->]]; intros; simplify_eq.
  - eapply session_post_then_neutral; eauto.
  - eapply session_post_then_neutral; [|eauto].
    unfold session_post in *. destruct Hl as (? & ? & ? & ? & ? & ?).
    repeat split; auto; intros; simplify_eq.
Qed.

(** An IDLE session as a whole. *)
Lemma idle_client_post fuel c w r w' :
  idle_client cfg env fuel c w = (r, w') → session_post w r w'.
Proof.
  unfold idle_client. unfold mbind at 1, M_bind at 1.
  destruct (read_thread_stopped env w) as [rs w1] eqn:Hs.
  assert (neutral w w1 ∧ ∃ b, rs = Some (Ret b)) as [Hn1 [stopped ->]].
  { revert Hs. run. intros; simplify_eq. observe. eauto 10. }
  intros H. eapply session_post_neutral; [exact Hn1|]. clear Hn1 Hs.
  destruct stopped.
  { cbv in H. simplify_eq. apply session_post_refl. }
  revert H. unfold mbind at 1, M_bind at 1.
  destruct (enter_idle env c w1) as [re w2] eqn:He.
  apply enter_idle_post in He as [Hn2 Hre].
  intros H. eapply session_post_neutral; [exact Hn2|]. clear Hn2.
  destruct re as [[[]|e]|]; [| |done].
  - by apply idle_client_wait_post in H.
  - simplify_eq. apply session_post_refl.
Qed.

(** The error budget: the counter moves only under a positive budget, and
    the worker gives up once the counter is over it. *)
Lemma on_failure_post w r w' :
  on_failure cfg w = (r, w') →
  failures w' = failures w ∧
  completed_checks w' = completed_checks w ∧
  (sleeps w ≤ sleeps w')%nat ∧
  imap_error_count w' =
    imap_error_count w + (if 0 <? MAX_IMAP_ERROR_COUNT cfg then 1 else 0) ∧
  r = Some (Ret (if (0 <? MAX_IMAP_ERROR_COUNT cfg)
                    && (MAX_IMAP_ERROR_COUNT cfg <? imap_error_count w')
                 then Return else Continue)).
Proof.
  unfold on_failure. run. intros H.
  repeat case_match; simplify_eq; observe; cbn [andb];
    repeat match goal with H : (_ <? _) = _ |- _ => rewrite H end;
    repeat split; auto; lia.
Qed.

(** One iteration of the main loop. *)
Lemma idle_iteration_post fuel w r w' :
  idle_iteration cfg env fuel w = (r, w') →
  (completed_checks w ≤ completed_checks w')%nat ∧
  ((failures w' = failures w ∧
    (imap_error_count w' = imap_error_count w ∨ imap_error_count w' = 0) ∧
    (completed_checks w' = completed_checks w →
     imap_error_count w' = imap_error_count w)) ∨
   (failures w' = S (failures w) ∧
    imap_error_count w' =
      (if decide (completed_checks w' = completed_checks w)
       then imap_error_count w else 0)
      + (if 0 <? MAX_IMAP_ERROR_COUNT cfg then 1 else 0) ∧
    (r = Some (Ret (if (0 <? MAX_IMAP_ERROR_COUNT cfg)
                       && (MAX_IMAP_ERROR_COUNT cfg <? imap_error_count w')
                    then Return else Continue)) ∨
     ∃ t, logout_answer env t = Raise KeyboardInterrupt))).
Proof.
  unfold idle_iteration. unfold mbind at 1, M_bind at 1.
  destruct (read_thread_stopped env w) as [rs w1] eqn:Hs.
  assert (neutral w w1 ∧ ∃ b, rs = Some (Ret b)) as [Hn1 [stopped ->]].
  { revert Hs. run. intros; simplify_eq. observe. eauto 10. }
  destruct Hn1 as (Hf1 & _ & Hk1 & Hc1). rewrite <- Hf1, <- Hk1, <- Hc1.
  clear Hs Hf1 Hk1 Hc1 w.
  destruct stopped.
  { run. intros; simplify_eq. observe. auto 10. }
  unfold mbind at 1, M_bind at 1, reify, connect.
  destruct (connect_answer env (tick w1)) as [[]|ex] eqn:Hconn;
    cbn [after_connect].
  2:{ destruct (is_Exception ex).
      - unfold mbind at 1, M_bind at 1, log, emit, modify.
        intros H. apply on_failure_post in H as (? & ? & ? & -> & ->).
        observe. split; [lia|]. right.
        rewrite decide_True by lia. repeat split; auto; lia.
      - run. intros; simplify_eq. observe. auto 10. }
  set (w2 := next_tick _).
  assert (neutral w1 w2) as (Hf2 & _ & Hk2 & Hc2) by (subst w2; observe; auto).
  rewrite <- Hf2, <- Hk2, <- Hc2. clearbody w2. clear Hconn Hf2 Hk2 Hc2.
  unfold supervised, finally, catch. unfold mbind at 1, M_bind at 1.
  destruct (idle_client cfg env fuel (tick w1) w2) as [r1 w3] eqn:Hi.
  apply idle_client_post in Hi as (Hf & _ & Hk & Hor & Hsame & Hraise).
  assert (∀ (s : outcome signal) w4 (r : option (outcome signal)) w',
    match swallow (logout env (tick w1)) w4 with
    | (Some (Ret _), w'') => (Some s, w'')
    | (Some (Raise e), w'') => (Some (Raise e), w'')
    | (None, w'') => (None, w'')
    end = (r, w') →
    neutral w4 w' ∧
    (r = Some s ∨ ∃ t, logout_answer env t = Raise KeyboardInterrupt))
    as Hout.
  { intros s w4 r0 w0. run. intros H.
    repeat case_match; simplify_eq; observe; (split; [auto|]); eauto.
    destruct e; simplify_eq; eauto. }
  assert (∀ w', neutral w3 w' →
    (completed_checks w2 ≤ completed_checks w')%nat ∧
    failures w' = failures w2 ∧
    (imap_error_count w' = imap_error_count w2 ∨ imap_error_count w' = 0) ∧
    (completed_checks w' = completed_checks w2 →
     imap_error_count w' = imap_error_count w2)) as Hquiet.
  { intros w0 (? & ? & ? & ?). split; [lia|]. split; [congruence|].
    split; [destruct Hor; [left|right]; congruence|].
    intros. transitivity (imap_error_count w3); [congruence|].
    apply Hsame. congruence. }
  destruct r1 as [[[]|e]|].
  - cbv [mret M_ret]. intros H. apply Hout in H as [Hn _].
    apply Hquiet in Hn as [? ?]. auto.
  - unfold on_Exception. destruct (is_Exception e) eqn:He.
    + unfold mbind at 1, M_bind at 1, log, emit, modify.
      destruct (on_failure cfg _) as [r2 w4] eqn:Hof.
      apply on_failure_post in Hof as (Hf4 & Hk4 & _ & Hc4 & ->).
      intros H. apply Hout in H as [(Hf5 & _ & Hk5 & Hc5) Hr].
      rewrite <- Hc5 in Hr.
      observe. split; [lia|]. right.
      split; [lia|]. split; [|exact Hr].
      case_decide as Hd.
      * rewrite Hc5, Hc4, Hsame by congruence. reflexivity.
      * rewrite Hc5, Hc4, (Hraise e) by (auto; congruence). reflexivity.
    + intros H. apply Hout in H as [Hn _].
      apply Hquiet in Hn as [? ?]. auto.
  - intros; simplify_eq. split; [lia|]. left. split; [congruence|].
    split; [destruct Hor; [left|right]; congruence|exact Hsame].
Qed.



(** ** The error budget *)



(** ** Check cycles *)

(** C5.  A check cycle whose wait-and-check comes back without raising
    (whatever arrived, whether or not a message qualified, was fetched or
    was dispatched) ends with the error counter set to zero and the loop
    going on; so every iteration of the wait loop that completes its check
    hands the next iteration a counter of zero. *)
Theorem counter_reset_after_completed_check c w w1 :
  idle_loop cfg env c w = (Some (Ret ()), w1) →
  check_cycle cfg env c w = (Some (Ret Continue), set_imap_error_count 0 w1) ∧
  imap_error_count (set_imap_error_count 0 w1) = 0 ∧
  ∀ fuel w0 wa,
    read_thread_stopped env w0 = (Some (Ret false), wa) →
    reconnection_due cfg env wa = (Some (Ret false), w) →
    idle_client_loop cfg env (S fuel) c w0 =
    idle_client_loop cfg env fuel c (set_imap_error_count 0 w1).
Proof.
  intros H.
  assert (check_cycle cfg env c w
          = (Some (Ret Continue), set_imap_error_count 0 w1)) as Hcycle.
  { unfold check_cycle, catch. unfold mbind at 1, M_bind at 1.
    rewrite H. reflexivity. }
  repeat split; [exact Hcycle|].
  intros fuel w0 wa Hs Hd. cbn [idle_client_loop].
  unfold mbind at 1, M_bind at 1. rewrite Hs.
  unfold mbind at 1, M_bind at 1. rewrite Hd.
  unfold mbind at 1, M_bind at 1. rewrite Hcycle. reflexivity.
Qed.

(** C6.  Fetching an envelope lets no [Exception] out and does not touch
    the attributes of the handler (so nothing is counted against the
    budget, and none of the two failures of the main loop is logged).  If
    the secondary session was opened, its [logout] is the last thing done,
    whatever happened in between and whatever [logout] itself answers; if
    it could not be opened there is none to close.  A connection or fetch
    that raises an [Exception] gives [None]. *)
Theorem fetch_failures_contained nr w :
  let r := (get_message_envelope cfg env nr w).1 in
  let w' := (get_message_envelope cfg env nr w).2 in
  (∃ o, r = Some o ∧ ∀ e, o = Raise e → is_Exception e = false) ∧
  same_attributes w w' ∧
  failures w' = failures w ∧
  match connect_answer env (tick w) with
  | Ret _ =>
      hd_error (trace w')
        = Some (Logout (tick w) (logout_answer env (S (S (tick w))))) ∧
      ∀ e, fetch_answer env (S (tick w)) = Raise e → is_Exception e = true →
           r = Some (Ret PyNone) ∨
           logout_answer env (S (S (tick w))) = Raise KeyboardInterrupt
  | Raise e =>
      trace w' =
        (if is_Exception e then [Log (SeparateConnectionFailed e)] else [])
        ++ Connect (folder cfg) true (Raise e) :: trace w ∧
      (is_Exception e = true → r = Some (Ret PyNone))
  end.
Proof.
  cbn zeta.
  destruct (get_message_envelope cfg env nr w) as [r w'] eqn:H. cbn [fst snd].
  pose proof (get_message_envelope_post _ _ _ _ H)
    as (Hattr & Hfail & _ & _ & Hexc).
  split; [exact Hexc|]. split; [exact Hattr|]. split; [exact Hfail|].
  clear Hattr Hfail Hexc. revert H. unfold get_message_envelope. run.
  cbn [tick next_tick record thread_stopped connected_at imap_error_count
       trace].
  destruct (connect_answer env (tick w)) as [[]|e0] eqn:Hconn.
  - destruct (fetch_answer env (S (tick w))) as [result|e1] eqn:Hfetch;
      destruct (logout_answer env (S (S (tick w)))) as [[]|e2] eqn:Hlogout;
      intros H;
      (split; [repeat case_match; simplify_eq; observe; simplify_eq;
               repeat match goal with a : () |- _ => destruct a end;
               cbn; congruence|]);
      intros e [= <-] He; rewrite He in H; observe; rewrite Hlogout in H;
      try (destruct e2; cbn in H); simplify_eq; auto.
  - destruct (is_Exception e0); intros; simplify_eq; split; auto; done.
Qed.

(** C7.  Let a check cycle reach the dispatcher (a notification arrived,
    it qualified, its envelope was fetched) and let the dispatcher raise an
    [Exception].  Then the wait-and-check still comes back normally, having
    logged the failure; the attributes are untouched and no failure of the
    main loop is logged; and the cycle is a success like any other: the
    loop goes on with the error counter at zero. *)
Theorem dispatch_failure_contained c w responses nr w2 envelope e :
  idle_check_answer env (tick w) = Ret responses →
  truthy responses = true →
  get_new_message_number responses (ignoreRecentFlag cfg) = Ret nr →
  truthy nr = true →
  get_message_envelope cfg env nr
    (record (Log (FetchingEnvelope nr))
       (record (Log (Received responses))
          (next_tick
             (record (IdleCheck c (SECONDS_TO_WAIT_FOR_IDLE_RESPONSE cfg)
                        (Ret responses)) w))))
    = (Some (Ret envelope), w2) →
  truthy envelope = true →
  trigger_answer env (tick w2) = Raise e →
  is_Exception e = true →
  let w3 := record (Log (CallbackFailed e))
              (next_tick (record (Trigger envelope (Raise e)) w2)) in
  idle_loop cfg env c w = (Some (Ret ()), w3) ∧
  same_attributes w w3 ∧
  failures w3 = failures w ∧
  check_cycle cfg env c w = (Some (Ret Continue), set_imap_error_count 0 w3) ∧
  imap_error_count (set_imap_error_count 0 w3) = 0.
Proof.
  intros Hcheck Htr Hnr Htn Hfetch Hte Htrig He w3.
  assert (idle_loop cfg env c w = (Some (Ret ()), w3)) as Hloop.
  { unfold idle_loop. run. rewrite Hcheck, Htr. cbn [negb].
    rewrite Hnr, Htn. cbn [negb]. rewrite Hfetch, Hte. cbn [negb].
    rewrite Htrig, He. reflexivity. }
  pose proof (idle_loop_post _ _ _ _ Hloop) as (Hattr & Hfail & _).
  split; [exact Hloop|]. split; [exact Hattr|]. split; [exact Hfail|].
  split; [|reflexivity].
  unfold check_cycle, catch. unfold mbind at 1, M_bind at 1.
  rewrite Hloop. reflexivity.
Qed.

Lemma parsed_means_nonempty responses flag v :
  get_new_message_number responses flag = Ret v →
  v ≠ PyNone → truthy responses = true.
Proof.
  destruct flag; [rewrite relaxed_parse | rewrite strict_parse];
    intros [= <-] Hv; destruct responses as [| | | | | |[|x rest]|]; done.
Qed.

(** C10.  When the parser returns the sequence number 0, the watcher takes
    it for no message: the wait-and-check logs what it received and comes
    back, with no connection opened, nothing fetched and nothing
    dispatched.  The relaxed parser does return 0 on [(0, EXISTS)]. *)
Theorem sequence_number_zero_is_dropped c w responses :
  idle_check_answer env (tick w) = Ret responses →
  get_new_message_number responses (ignoreRecentFlag cfg) = Ret (PyInt 0) →
  idle_loop cfg env c w =
    (Some (Ret ()),
     record (Log (Received responses))
       (next_tick
          (record (IdleCheck c (SECONDS_TO_WAIT_FOR_IDLE_RESPONSE cfg)
                     (Ret responses)) w))) ∧
  get_new_message_number (encode [(0, EXISTS)]) true = Ret (PyInt 0).
Proof.
  intros Hcheck Hnr. split; [|reflexivity].
  unfold idle_loop. run.
  rewrite Hcheck, (parsed_means_nonempty _ _ _ Hnr) by done. cbn [negb].
  rewrite Hnr. reflexivity.
Qed.

(** ** Forced reconnection *)

(** What is left of a round at the top of the wait loop.  A round that
    has connected and entered IDLE mode goes on as the supervised wait
    loop, and so does every iteration of the loop after a check cycle. *)
Lemma supervised_enters fuel c w w1 w2 :
  read_thread_stopped env w = (Some (Ret false), w1) →
  enter_idle env c w1 = (Some (Ret ()), w2) →
  supervised cfg env (idle_client cfg env fuel c) c w =
  supervised cfg env (idle_client_wait cfg env fuel c) c w2.
Proof.
  intros Hs He. unfold supervised, finally, catch, idle_client.
  unfold mbind at 1 3, M_bind at 1 3.
  unfold mbind at 1, M_bind at 1. rewrite Hs.
  unfold mbind at 1, M_bind at 1. rewrite He. reflexivity.
Qed.

Lemma idle_client_wait_unroll fuel c w0 wa w w1 :
  read_thread_stopped env w0 = (Some (Ret false), wa) →
  reconnection_due cfg env wa = (Some (Ret false), w) →
  check_cycle cfg env c w = (Some (Ret Continue), w1) →
  idle_client_wait cfg env (S fuel) c w0 = idle_client_wait cfg env fuel c w1.
Proof.
  intros Hs Hd Hc. unfold idle_client_wait, finally. cbn [idle_client_loop].
  unfold mbind at 1, M_bind at 1. rewrite Hs.
  unfold mbind at 1, M_bind at 1. rewrite Hd.
  unfold mbind at 1, M_bind at 1. rewrite Hc. reflexivity.
Qed.

(** The start of a round: the worker looks at its stop flag and, unless a
    stop was requested, asks the connector for a session. *)
Lemma round_starts_by_connecting fuel w :
  thread_stopped w = false →
  if stop_requested env (tick w)
  then idle_iteration cfg env fuel w =
         (Some (Ret Break),
          record (Log ThreadStopped) (next_tick (set_thread_stopped true w)))
  else ∃ a w',
         trace w' = Connect (folder cfg) true a :: trace w ∧
         imap_error_count w' = imap_error_count w ∧
         idle_iteration cfg env fuel w = after_connect cfg env fuel a w'.
Proof.
  intros Hs. unfold idle_iteration. run. rewrite Hs. cbn [orb].
  destruct (stop_requested env (tick w)); [reflexivity|].
  eexists _, _. split; [|split; [|reflexivity]]; reflexivity.
Qed.

(** Entering IDLE mode stores the clock reading it makes, whether or not
    the server then accepts IDLE mode, and leaves the stop flag alone. *)
Lemma enter_idle_records_clock c w r w' :
  enter_idle env c w = (r, w') →
  connected_at w' = Some (clock env (tick w)) ∧
  thread_stopped w' = thread_stopped w ∧
  (r = Some (Ret ()) →
   trace w' = Idle c (Ret ()) :: Time (clock env (tick w))
                :: Log EnterIdle :: trace w).
Proof.
  unfold enter_idle. run. intros H.
  repeat case_match; simplify_eq; observe; repeat split; auto;
    intros; simplify_eq; reflexivity.
Qed.

Lemma read_thread_stopped_false w w' :
  read_thread_stopped env w = (Some (Ret false), w') →
  thread_stopped w = false ∧ stop_requested env (tick w) = false ∧
  w' = next_tick (set_thread_stopped false w).
Proof.
  unfold read_thread_stopped. intros [= Hb <-]. rewrite Hb.
  apply orb_false_elim in Hb as [? ?]. auto.
Qed.

(** The renewal test changes no attribute. *)
Lemma reconnection_due_attributes w r w' :
  reconnection_due cfg env w = (r, w') → same_attributes w w'.
Proof.
  unfold reconnection_due. run. intros H.
  repeat case_match; simplify_eq; observe; auto.
Qed.

(** At every top of the wait loop the stop flag is down and the stored
    timestamp is the clock reading made on entering IDLE mode. *)
Lemma idling_since_attributes c t0 w :
  idling_since cfg env c t0 w →
  thread_stopped w = false ∧ connected_at w = Some t0.
Proof.
  induction 1 as [w0 w1 w Hs Ht He|w wa wb w' _ [IHs IHt] Hs Hd Hc].
  - apply read_thread_stopped_false in Hs as (_ & _ & ->).
    apply enter_idle_records_clock in He as (Hat & Hst & _).
    revert Hat Hst Ht. observe. intros -> -> <-. auto.
  - apply read_thread_stopped_false in Hs as (_ & _ & ->).
    apply reconnection_due_attributes in Hd as (Hs2 & Ht2 & _).
    apply check_cycle_post in Hc as (_ & _ & Ht3 & _ & _ & Hs3).
    revert Hs2 Ht2. observe. intros Hs2 Ht2. split; congruence.
Qed.

(** C8, as the code has it.  Take a top of the wait loop of an IDLE
    session entered when the clock read [t0], no stop being requested.
    If the renewal threshold is positive and the clock is now past [t0] by
    more than the threshold, the rest of the round is: read the clock, log
    the renewal, leave IDLE mode, close the session; the round then ends
    normally, the error counter being what it was and nothing slept; and
    the next round, unless a stop was requested meanwhile, starts by asking
    for a new session.  Otherwise the session is kept: the renewal test
    says no, logging nothing (with a threshold of 0 or less it does not
    even read the clock), the attributes are what they were, and the loop
    goes on with its check cycle. *)
Theorem forced_reconnection fuel fuel' c w t0 :
  idling_since cfg env c t0 w →
  stop_requested env (tick w) = false →
  if (0 <? SECONDS_TO_RECONNECT_AFTER cfg)
     && (SECONDS_TO_RECONNECT_AFTER cfg <? clock env (S (tick w)) - t0)
  then
    idle_done_answer env (S (S (tick w))) ≠ Raise KeyboardInterrupt →
    logout_answer env (S (S (S (tick w)))) ≠ Raise KeyboardInterrupt →
    ∃ w',
      supervised cfg env (idle_client_wait cfg env (S fuel) c) c w
        = (Some (Ret Continue), w') ∧
      trace w' =
        Logout c (logout_answer env (S (S (S (tick w)))))
        :: IdleDone c (idle_done_answer env (S (S (tick w))))
        :: Log LeavingIdle
        :: Log EnforceReconnection
        :: Time (clock env (S (tick w)))
        :: trace w ∧
      imap_error_count w' = imap_error_count w ∧
      sleeps w' = sleeps w ∧
      failures w' = failures w ∧
      if stop_requested env (tick w')
      then idle_iteration cfg env fuel' w' =
             (Some (Ret Break),
              record (Log ThreadStopped)
                (next_tick (set_thread_stopped true w')))
      else ∃ a w'',
             trace w'' = Connect (folder cfg) true a :: trace w' ∧
             imap_error_count w'' = imap_error_count w' ∧
             idle_iteration cfg env fuel' w' =
               after_connect cfg env fuel' a w''
  else
    ∃ wa wb,
      read_thread_stopped env w = (Some (Ret false), wa) ∧
      reconnection_due cfg env wa = (Some (Ret false), wb) ∧
      trace wb =
        (if 0 <? SECONDS_TO_RECONNECT_AFTER cfg
         then [Time (clock env (S (tick w)))] else []) ++ trace w ∧
      same_attributes w wb ∧
      idle_client_loop cfg env (S fuel) c w =
        (s ← check_cycle cfg env c;
         match s with
         | Continue => idle_client_loop cfg env fuel c
         | _ => mret ()
         end) wb.
Proof.
  intros Hidle Hreq. apply idling_since_attributes in Hidle as [Hs Hat].
  assert (read_thread_stopped env w =
            (Some (Ret false), next_tick (set_thread_stopped false w)))
    as Hread.
  { unfold read_thread_stopped. rewrite Hs, Hreq. reflexivity. }
  assert (∀ wb,
    reconnection_due cfg env (next_tick (set_thread_stopped false w))
      = (Some (Ret false), wb) →
    idle_client_loop cfg env (S fuel) c w =
      (s ← check_cycle cfg env c;
       match s with
       | Continue => idle_client_loop cfg env fuel c
       | _ => mret ()
       end) wb) as Hloop.
  { intros wb Hd. cbn [idle_client_loop].
    unfold mbind at 1, M_bind at 1. rewrite Hread.
    unfold mbind at 1, M_bind at 1. rewrite Hd. reflexivity. }
  destruct (0 <? SECONDS_TO_RECONNECT_AFTER cfg) eqn:Hpos; cbn [andb].
  2:{ assert (reconnection_due cfg env (next_tick (set_thread_stopped false w))
               = (Some (Ret false), next_tick (set_thread_stopped false w)))
        as Hd by (unfold reconnection_due; rewrite Hpos; reflexivity).
      eexists _, _. split; [exact Hread|]. split; [exact Hd|].
      split; [reflexivity|]. split; [observe; auto|]. by apply Hloop. }
  destruct (SECONDS_TO_RECONNECT_AFTER cfg <? clock env (S (tick w)) - t0)
    eqn:Hage.
  2:{ assert (reconnection_due cfg env (next_tick (set_thread_stopped false w))
               = (Some (Ret false),
                  next_tick (record (Time (clock env (S (tick w))))
                               (next_tick (set_thread_stopped false w)))))
        as Hd.
      { unfold reconnection_due. run.
        repeat first [ rewrite Hpos | rewrite Hat | rewrite Hage
                     | progress observe ].
        reflexivity. }
      eexists _, _. split; [exact Hread|]. split; [exact Hd|].
      split; [reflexivity|]. split; [observe; auto|]. by apply Hloop. }
  intros Hdone Hlogout.
  assert (∀ (A : Type) (x : outcome A),
            x ≠ Raise KeyboardInterrupt →
            (∃ a, x = Ret a) ∨ ∃ e, x = Raise e ∧ is_Exception e = true)
    as Hcases.
  { intros A [a|[]] Hx; eauto; done. }
  exists
    (next_tick
       (record (Logout c (logout_answer env (S (S (S (tick w))))))
          (next_tick
             (record (IdleDone c (idle_done_answer env (S (S (tick w)))))
                (record (Log LeavingIdle)
                   (record (Log EnforceReconnection)
                      (next_tick
                         (record (Time (clock env (S (tick w))))
                            (next_tick (set_thread_stopped false w)))))))))).
  split.
  { unfold supervised, idle_client_wait, leave_idle. cbn [idle_client_loop].
    unfold reconnection_due. run.
    repeat first [ rewrite Hs | rewrite Hreq | rewrite Hpos | rewrite Hat
                 | rewrite Hage | progress observe | progress cbn [orb] ].
    destruct (Hcases _ _ Hdone) as [[[] Hd]|(e1 & Hd & He1)];
      destruct (Hcases _ _ Hlogout) as [[[] Hl]|(e2 & Hl & He2)];
      repeat first [ rewrite Hd | rewrite Hl | rewrite He1 | rewrite He2
                   | progress observe ];
      reflexivity. }
  do 4 (split; [reflexivity|]).
  apply round_starts_by_connecting. reflexivity.
Qed.

End Steps.

(** ** Instances and counterexamples *)


Lemma quiet_uninterrupted : uninterrupted quiet.
Proof. intros t. repeat split; discriminate. Qed.


(** The same with IDLE failures: with a budget of 1 and a server that
    drops the line at every wait, two rounds fail, the teardown errors are
    swallowed, and the worker returns on the second failure. *)
Example budget_exhausted_by_idle_failures :
  (idle (with_budget 1) dropping 1 1 init).1 = None ∧
  (idle (with_budget 1) dropping 1 2 init).1 = Some (Ret ()) ∧
  failures (idle (with_budget 1) dropping 1 2 init).2 = 2%nat ∧
  completed_checks (idle (with_budget 1) dropping 1 2 init).2 = 0%nat ∧
  imap_error_count (idle (with_budget 1) dropping 1 2 init).2 = 2.
Proof. vm_compute. repeat split. Qed.



(** A check cycle of a quiet server, entered with three errors counted,
    leaves none. *)
Lemma counter_reset_witness :
  check_cycle default_config quiet 0%nat idling
    = (Some (Ret Continue),
       set_imap_error_count 0 (idle_loop default_config quiet 0%nat idling).2) ∧
  imap_error_count
    (set_imap_error_count 0 (idle_loop default_config quiet 0%nat idling).2) = 0 ∧
  ∀ fuel w0 wa,
    read_thread_stopped quiet w0 = (Some (Ret false), wa) →
    reconnection_due default_config quiet wa = (Some (Ret false), idling) →
    idle_client_loop default_config quiet (S fuel) 0%nat w0 =
    idle_client_loop default_config quiet fuel 0%nat
      (set_imap_error_count 0 (idle_loop default_config quiet 0%nat idling).2).
Proof.
  apply (counter_reset_after_completed_check default_config quiet 0%nat idling).
  vm_compute. reflexivity.
Defined.

(** Message 42 is announced and fetched, and the callback fails. *)
Lemma dispatch_failure_witness :
  let e := LibraryError "command failed" in
  let w2 :=
    (get_message_envelope default_config failing_callback (PyInt 42)
       (record (Log (FetchingEnvelope (PyInt 42)))
          (record (Log (Received (encode [(42, EXISTS); (1, RECENT)])))
             (next_tick
                (record (IdleCheck 0%nat 15
                           (Ret (encode [(42, EXISTS); (1, RECENT)])))
                   idling))))).2 in
  let w3 := record (Log (CallbackFailed e))
              (next_tick (record (Trigger sample_envelope (Raise e)) w2)) in
  idle_loop default_config failing_callback 0%nat idling = (Some (Ret ()), w3) ∧
  same_attributes idling w3 ∧
  failures w3 = failures idling ∧
  check_cycle default_config failing_callback 0%nat idling
    = (Some (Ret Continue), set_imap_error_count 0 w3) ∧
  imap_error_count (set_imap_error_count 0 w3) = 0.
Proof.
  apply (dispatch_failure_contained default_config failing_callback 0%nat idling
           (encode [(42, EXISTS); (1, RECENT)]) (PyInt 42)).
  - reflexivity.
  - reflexivity.
  - vm_compute. reflexivity.
  - reflexivity.
  - vm_compute. reflexivity.
  - reflexivity.
  - reflexivity.
  - reflexivity.
Defined.

(** In relaxed mode, [(0, EXISTS)] is parsed to 0 and then dropped. *)
Lemma sequence_number_zero_witness :
  idle_loop relaxed announcing_zero 0%nat idling =
    (Some (Ret ()),
     record (Log (Received (encode [(0, EXISTS)])))
       (next_tick
          (record (IdleCheck 0%nat (SECONDS_TO_WAIT_FOR_IDLE_RESPONSE relaxed)
                     (Ret (encode [(0, EXISTS)]))) idling))) ∧
  get_new_message_number (encode [(0, EXISTS)]) true = Ret (PyInt 0).
Proof.
  apply (sequence_number_zero_is_dropped relaxed announcing_zero 0%nat idling).
  - reflexivity.
  - vm_compute. reflexivity.
Defined.

(** With the default threshold of 600 seconds: a worker that entered IDLE
    mode with the clock at 1000 finds it at 4000 at the top of its wait
    loop, and the session is renewed. *)
Lemma forced_reconnection_witness :
  let w := (enter_idle late 0%nat (read_thread_stopped late init).2).2 in
  ∃ w',
    supervised default_config late
      (idle_client_wait default_config late 1 0%nat) 0%nat w
      = (Some (Ret Continue), w') ∧
    trace w' =
      Logout 0%nat (logout_answer late (S (S (S (tick w)))))
      :: IdleDone 0%nat (idle_done_answer late (S (S (tick w))))
      :: Log LeavingIdle
      :: Log EnforceReconnection
      :: Time (clock late (S (tick w)))
      :: trace w ∧
    imap_error_count w' = imap_error_count w ∧
    sleeps w' = sleeps w ∧
    failures w' = failures w ∧
    if stop_requested late (tick w')
    then idle_iteration default_config late 1%nat w' =
           (Some (Ret Break),
            record (Log ThreadStopped) (next_tick (set_thread_stopped true w')))
    else ∃ a w'',
           trace w'' = Connect (folder default_config) true a :: trace w' ∧
           imap_error_count w'' = imap_error_count w' ∧
           idle_iteration default_config late 1%nat w'
             = after_connect default_config late 1%nat a w''.
Proof.
  refine (forced_reconnection default_config late 0%nat 1%nat 0%nat
            (enter_idle late 0%nat (read_thread_stopped late init).2).2 1000
            _ _ _ _).
  - apply (idle_entered default_config late 0%nat 1000 init
             (read_thread_stopped late init).2).
    + vm_compute. reflexivity.
    + vm_compute. reflexivity.
    + vm_compute. reflexivity.
  - reflexivity.
  - discriminate.
  - discriminate.
Defined.

(** C8 as stated fails.  With the threshold set to 0 the session is never
    renewed: in IDLE mode since time 0, with the clock at 6000, the worker
    goes on to the next [idle_check]; it neither leaves IDLE mode nor
    closes the session nor connects again. *)
Lemma no_renewal_with_zero_threshold :
  SECONDS_TO_RECONNECT_AFTER without_renewal
    < clock late (S (tick idling)) - 0 ∧
  supervised without_renewal late
    (idle_client_wait without_renewal late 1 0%nat) 0%nat idling
  = (None,
     {| thread_stopped := false; connected_at := Some 0;
        imap_error_count := 0; tick := 7%nat;
        trace := [IdleCheck 0%nat 15 (Ret (PyList []))] |}).
Proof. vm_compute. split; reflexivity. Qed.

(** * Further properties of the worker *)

Ltac tally :=
  cbv [tidy sessions_balanced idle_balanced opened closed entered left_idle
       dispatches stray_connects same_attributes neutral failures
       completed_checks sleeps] in *;
  cbn [thread_stopped connected_at imap_error_count tick trace
       next_tick record set_thread_stopped set_connected_at
       set_imap_error_count occurrences is_failure is_completed_check
       is_sleep is_opened is_closed is_entered is_left is_dispatch
       is_stray_connect] in *;
  rewrite ?bool_decide_eq_true_2 in * by reflexivity;
  cbn [andb negb Nat.add] in *.

Section Resources.

Context (cfg : config) (env : environment).

Lemma tidy_trans w1 w2 w3 : tidy cfg w1 w2 → tidy cfg w2 w3 → tidy cfg w1 w3.
Proof. unfold tidy. intros (? & ? & ?) (? & ? & ?). repeat split; auto; lia. Qed.

Lemma sessions_balanced_trans w1 w2 w3 :
  sessions_balanced w1 w2 → sessions_balanced w2 w3 → sessions_balanced w1 w3.
Proof. unfold sessions_balanced. lia. Qed.

Lemma idle_balanced_trans w1 w2 w3 :
  idle_balanced w1 w2 → idle_balanced w2 w3 → idle_balanced w1 w3.
Proof. unfold idle_balanced. lia. Qed.

Lemma inner_step_trans w1 w2 w3 :
  inner_step cfg w1 w2 → inner_step cfg w2 w3 → inner_step cfg w1 w3.
Proof.
  intros (? & ? & ? & ?) (? & ? & ? & ?).
  split; [eauto using tidy_trans|].
  split; [eauto using sessions_balanced_trans|]. split; congruence.
Qed.

Lemma inner_step_refl w : inner_step cfg w w.
Proof. unfold inner_step. tally. repeat split; auto. Qed.

Lemma get_message_envelope_inner nr w r w' :
  get_message_envelope cfg env nr w = (r, w') →
  inner_step cfg w w' ∧ dispatches w' = dispatches w.
Proof.
  unfold get_message_envelope, inner_step. run. intros H.
  repeat case_match; simplify_eq; tally; repeat split; auto; lia.
Qed.

Lemma idle_loop_inner c w r w' :
  idle_loop cfg env c w = (r, w') →
  inner_step cfg w w' ∧ (dispatches w ≤ dispatches w' ≤ S (dispatches w))%nat.
Proof.
  unfold idle_loop. run. intros H.
  destruct (idle_check_answer env (tick w)) as [responses|e];
    [|simplify_eq; unfold inner_step; tally; repeat split; auto; lia].
  destruct (get_new_message_number_returns responses (ignoreRecentFlag cfg))
    as [nr Hnr].
  rewrite Hnr in H.
  destruct (negb (truthy responses));
    [simplify_eq; unfold inner_step; tally; repeat split; auto; lia|].
  destruct (negb (truthy nr));
    [simplify_eq; unfold inner_step; tally; repeat split; auto; lia|].
  destruct (get_message_envelope _ _ _ _) as [r1 w1] eqn:Hfetch.
  apply get_message_envelope_inner in Hfetch as [Hin Hd].
  unfold inner_step in *. tally.
  repeat case_match; simplify_eq; tally; repeat split; try tauto; lia.
Qed.

Lemma check_cycle_inner c w r w' :
  check_cycle cfg env c w = (r, w') → inner_step cfg w w'.
Proof.
  unfold check_cycle. run. intros H.
  destruct (idle_loop _ _ _ _) as [r1 w1] eqn:Hloop.
  apply idle_loop_inner in Hloop as [Hin _].
  unfold inner_step in *. tally.
  destruct r1 as [[[]|e]|]; [| |simplify_eq; tauto].
  - simplify_eq. tally. repeat split; try tauto; lia.
  - destruct e; cbn in H; simplify_eq; tally; repeat split; try tauto; lia.
Qed.

Lemma read_thread_stopped_inner w r w' :
  read_thread_stopped env w = (r, w') →
  inner_step cfg w w' ∧ trace w' = trace w ∧
  ∃ b, r = Some (Ret b) ∧ thread_stopped w' = b.
Proof.
  run. intros; simplify_eq. unfold inner_step. tally.
  split; [repeat split; auto; try lia|eauto].
  intros ->. reflexivity.
Qed.

Lemma reconnection_due_inner w r w' :
  reconnection_due cfg env w = (r, w') → inner_step cfg w w' ∧ r ≠ None.
Proof.
  unfold reconnection_due, inner_step. run. intros H.
  repeat case_match; simplify_eq; tally; repeat split; auto; lia.
Qed.

Lemma idle_client_loop_inner fuel c w r w' :
  idle_client_loop cfg env fuel c w = (r, w') → inner_step cfg w w'.
Proof.
  revert w. induction fuel as [|fuel IH]; intros w H.
  { cbv in H. simplify_eq. apply inner_step_refl. }
  cbn [idle_client_loop] in H. revert H.
  unfold mbind at 1, M_bind at 1.
  destruct (read_thread_stopped env w) as [rs w1] eqn:Hs.
  apply read_thread_stopped_inner in Hs as (H1 & _ & stopped & -> & _).
  intros H. eapply inner_step_trans; [exact H1|]. clear H1.
  destruct stopped; [cbv in H; simplify_eq; apply inner_step_refl|].
  revert H. unfold mbind at 1, M_bind at 1.
  destruct (reconnection_due cfg env w1) as [rd w2] eqn:Hd.
  apply reconnection_due_inner in Hd as [H2 Hrd].
  intros H. eapply inner_step_trans; [exact H2|]. clear H2.
  destruct rd as [[[]|e]|]; [| | |done];
    try (cbv in H; simplify_eq; apply inner_step_refl).
  revert H. unfold mbind at 1, M_bind at 1.
  destruct (check_cycle cfg env c w2) as [rc w3] eqn:Hc.
  apply check_cycle_inner in Hc.
  intros H. eapply inner_step_trans; [exact Hc|].
  destruct rc as [[[| |]|e]|];
    try (cbv in H; simplify_eq; apply inner_step_refl).
  by apply IH.
Qed.

Lemma leave_idle_tidy c w r w' :
  leave_idle env c w = (r, w') →
  tidy cfg w w' ∧ opened w' = opened w ∧ closed w' = closed w ∧
  entered w' = entered w ∧ left_idle w' = S (left_idle w) ∧ r ≠ None.
Proof.
  unfold leave_idle. run. intros H.
  repeat case_match; simplify_eq; tally; repeat split; auto; lia.
Qed.

Lemma enter_idle_tidy c w r w' :
  enter_idle env c w = (r, w') →
  tidy cfg w w' ∧ opened w' = opened w ∧ closed w' = closed w ∧
  left_idle w' = left_idle w ∧
  match r with
  | Some (Ret _) => entered w' = S (entered w)
  | Some (Raise _) => entered w' = entered w
  | None => False
  end.
Proof.
  unfold enter_idle. run. intros H.
  repeat case_match; simplify_eq; tally; repeat split; auto; lia.
Qed.

Lemma idle_client_wait_tidy fuel c w r w' :
  idle_client_wait cfg env fuel c w = (r, w') →
  tidy cfg w w' ∧ sessions_balanced w w' ∧ entered w' = entered w ∧
  left_idle w' = match r with
                 | Some _ => S (left_idle w)
                 | None => left_idle w
                 end.
Proof.
  unfold idle_client_wait, finally.
  destruct (idle_client_loop _ _ _ _ _) as [r1 w1] eqn:Hl.
  apply idle_client_loop_inner in Hl as (Ht & Hb & He & Hl).
  destruct r1 as [o|]; [|intros; simplify_eq; auto].
  destruct (leave_idle _ _ _) as [r2 w2] eqn:Hd.
  apply leave_idle_tidy in Hd as (Ht2 & ? & ? & ? & ? & Hr2).
  assert (tidy cfg w w2) by eauto using tidy_trans.
  unfold sessions_balanced in *.
  destruct r2 as [[[]|e]|]; [| |done]; intros; simplify_eq;
    (split; [assumption|]); repeat split; lia.
Qed.

Lemma idle_client_tidy fuel c w r w' :
  idle_client cfg env fuel c w = (r, w') →
  tidy cfg w w' ∧ sessions_balanced w w' ∧
  match r with
  | Some _ => idle_balanced w w'
  | None => (entered w' + left_idle w = S (entered w + left_idle w'))%nat
  end.
Proof.
  unfold idle_client. unfold mbind at 1, M_bind at 1.
  destruct (read_thread_stopped env w) as [rs w1] eqn:Hs.
  apply read_thread_stopped_inner in Hs
    as ((Ht1 & Hb1 & He1 & Hl1) & _ & stopped & -> & _).
  destruct stopped.
  { cbv [mret M_ret]. intros; simplify_eq.
    unfold sessions_balanced, idle_balanced in *.
    split; [assumption|]. split; lia. }
  unfold mbind at 1, M_bind at 1.
  destruct (enter_idle env c w1) as [re w2] eqn:He.
  apply enter_idle_tidy in He as (Ht2 & ? & ? & ? & Hre).
  assert (tidy cfg w w2) as Htw by eauto using tidy_trans.
  unfold sessions_balanced, idle_balanced in *.
  destruct re as [[[]|e]|]; [| |done].
  - intros Hw. apply idle_client_wait_tidy in Hw as (Ht3 & ? & ? & Hl3).
    unfold sessions_balanced in *.
    split; [eauto using tidy_trans|]. split; [lia|].
    destruct r; lia.
  - intros; simplify_eq. split; [assumption|]. split; lia.
Qed.

Lemma on_failure_tidy w r w' :
  on_failure cfg w = (r, w') →
  tidy cfg w w' ∧ opened w' = opened w ∧ closed w' = closed w ∧
  entered w' = entered w ∧ left_idle w' = left_idle w ∧ r ≠ None.
Proof.
  unfold on_failure. run. intros H.
  repeat case_match; simplify_eq; tally; repeat split; auto; lia.
Qed.

(** One round of the main loop. *)
Lemma idle_iteration_tidy fuel w r w' :
  idle_iteration cfg env fuel w = (r, w') →
  tidy cfg w w' ∧
  (r ≠ None → sessions_balanced w w' ∧ idle_balanced w w').
Proof.
  unfold idle_iteration. unfold mbind at 1, M_bind at 1.
  destruct (read_thread_stopped env w) as [rs w1] eqn:Hs.
  apply read_thread_stopped_inner in Hs
    as ((Ht1 & Hb1 & He1 & Hl1) & Htr1 & stopped & -> & _).
  destruct stopped.
  { run. intros; simplify_eq. unfold sessions_balanced, idle_balanced in *.
    tally. repeat split; try tauto; lia. }
  unfold mbind at 1, M_bind at 1, reify, connect.
  destruct (connect_answer env (tick w1)) as [[]|ex] eqn:Hconn;
    cbn [after_connect].
  2:{ destruct (is_Exception ex).
      - unfold mbind at 1, M_bind at 1, log, emit, modify.
        intros Hrun. apply on_failure_tidy in Hrun as (? & ? & ? & ? & ? & ?).
        unfold sessions_balanced, idle_balanced in *. tally.
        repeat split; try tauto; lia.
      - run. intros; simplify_eq.
        unfold sessions_balanced, idle_balanced in *. tally.
        repeat split; try tauto; lia. }
  set (w2 := next_tick _).
  assert (tidy cfg w w2 ∧ opened w2 = S (opened w) ∧ closed w2 = closed w ∧
          entered w2 = entered w ∧ left_idle w2 = left_idle w)
    as (Ht2 & Ho2 & Hc2 & He2 & Hl2).
  { subst w2. unfold sessions_balanced in *. tally. rewrite Htr1.
    repeat split; try tauto; lia. }
  clearbody w2. clear Hconn Ht1 Hb1 He1 Hl1 Htr1.
  unfold supervised, finally, catch. unfold mbind at 1, M_bind at 1.
  destruct (idle_client cfg env fuel (tick w1) w2) as [r1 w3] eqn:Hi.
  apply idle_client_tidy in Hi as (Ht3 & Hb3 & Hi3).
  assert (∀ (s : outcome signal) w4 (r : option (outcome signal)) w',
    match swallow (logout env (tick w1)) w4 with
    | (Some (Ret _), w'') => (Some s, w'')
    | (Some (Raise e), w'') => (Some (Raise e), w'')
    | (None, w'') => (None, w'')
    end = (r, w') →
    tidy cfg w4 w' ∧ opened w' = opened w4 ∧ closed w' = S (closed w4) ∧
    entered w' = entered w4 ∧ left_idle w' = left_idle w4) as Hout.
  { intros s w4 r0 w0. run. intros H.
    repeat case_match; simplify_eq; tally; repeat split; auto; lia. }
  unfold sessions_balanced, idle_balanced in *.
  destruct r1 as [[[]|e]|].
  - cbv [mret M_ret]. intros Hrun. apply Hout in Hrun as (? & ? & ? & ? & ?).
    split; [eauto using tidy_trans|]. intros _. lia.
  - unfold on_Exception. destruct (is_Exception e) eqn:He.
    + unfold mbind at 1, M_bind at 1, log, emit, modify.
      destruct (on_failure cfg _) as [r2 w4] eqn:Hof.
      apply on_failure_tidy in Hof as (Ht4 & ? & ? & ? & ? & Hr2).
      destruct r2 as [o|]; [|done].
      intros Hrun. apply Hout in Hrun as (? & ? & ? & ? & ?).
      assert (tidy cfg w3 w4) by (revert Ht4; tally; tauto).
      split; [eauto using tidy_trans|]. intros _. tally. lia.
    + intros Hrun. apply Hout in Hrun as (? & ? & ? & ? & ?).
      split; [eauto using tidy_trans|]. intros _. lia.
  - intros; simplify_eq. split; [eauto using tidy_trans|]. done.
Qed.

Lemma idle_tidy fuel rounds w r w' :
  idle cfg env fuel rounds w = (r, w') →
  tidy cfg w w' ∧
  (r ≠ None → sessions_balanced w w' ∧ idle_balanced w w').
Proof.
  revert w. induction rounds as [|k IH]; intros w H.
  { cbv in H. simplify_eq. split; [|done]. tally. auto. }
  cbn [idle] in H. revert H. unfold mbind at 1, M_bind at 1.
  destruct (idle_iteration cfg env fuel w) as [r1 w1] eqn:Hit.
  apply idle_iteration_tidy in Hit as [Ht Hb].
  destruct r1 as [[[| |]|e]|]; intros H;
    try (cbv in H; simplify_eq; split; [exact Ht|]; intros _; by apply Hb).
  - apply IH in H as [Ht' Hb'].
    split; [eauto using tidy_trans|]. intros Hr.
    destruct Hb as [? ?]; [done|]. destruct (Hb' Hr).
    eauto using sessions_balanced_trans, idle_balanced_trans.
  - simplify_eq. split; [exact Ht|]. done.
Qed.


(** ** The shape of a round *)

(** What [logout] in the [finally] of the main loop does to the outcome [s]
    of the [try]: the session is closed, and only a [KeyboardInterrupt]
    raised by [logout] replaces the outcome. *)
Lemma closing_session (s : outcome signal) c w r w' :
  finally (lift s) (swallow (logout env c)) w = (r, w') →
  w' = next_tick (record (Logout c (logout_answer env (tick w))) w) ∧
  r = match logout_answer env (tick w) with
      | Raise KeyboardInterrupt => Some (Raise KeyboardInterrupt)
      | _ => Some s
      end.
Proof.
  run. intros H.
  destruct (logout_answer env (tick w)) as [[]|[]]; cbn in H; simplify_eq;
    auto.
Qed.

(** A round of the main loop, taken apart: the stop flag is read; unless
    it is set the connector is asked for a session; a failure to connect
    is handled by the error budget; otherwise the IDLE session runs, its
    failure is handled by the error budget, and the session is closed
    last. *)
Lemma idle_iteration_inv fuel w r w' :
  idle_iteration cfg env fuel w = (r, w') →
  let b := thread_stopped w || stop_requested env (tick w) in
  let w1 := next_tick (set_thread_stopped b w) in
  if b then r = Some (Ret Break) ∧ w' = record (Log ThreadStopped) w1
  else
    match connect_answer env (tick w1) with
    | Raise ex =>
        let w2 := next_tick (record (Connect (folder cfg) true (Raise ex)) w1) in
        if is_Exception ex
        then on_failure cfg (record (Log (ConnectionFailed ex)) w2) = (r, w')
        else r = Some (Raise ex) ∧ w' = w2
    | Ret _ =>
        let c := tick w1 in
        let w2 := next_tick (record (Connect (folder cfg) true (Ret c)) w1) in
        ∃ r1 w3,
          idle_client cfg env fuel c w2 = (r1, w3) ∧
          match r1 with
          | None => r = None ∧ w' = w3
          | Some o =>
              ∃ s w4,
                match o with
                | Ret _ => s = Ret Continue ∧ w4 = w3
                | Raise e =>
                    if is_Exception e
                    then on_failure cfg (record (Log (IdleFailed e)) w3)
                         = (Some s, w4)
                    else s = Raise e ∧ w4 = w3
                end ∧
                w' = next_tick
                       (record (Logout c (logout_answer env (tick w4))) w4) ∧
                r = match logout_answer env (tick w4) with
                    | Raise KeyboardInterrupt => Some (Raise KeyboardInterrupt)
                    | _ => Some s
                    end
          end
    end.
Proof.
  unfold idle_iteration. unfold mbind at 1, M_bind at 1.
  unfold read_thread_stopped at 1. cbn zeta.
  destruct (thread_stopped w || stop_requested env (tick w)).
  { run. intros; simplify_eq. auto. }
  unfold mbind at 1, M_bind at 1, reify, connect.
  set (w1 := next_tick (set_thread_stopped false w)).
  destruct (connect_answer env (tick w1)) as [[]|ex]; cbn [after_connect].
  2:{ destruct (is_Exception ex); [|by intros [= <- <-]].
      unfold mbind at 1, M_bind at 1, log, emit, modify. done. }
  set (w2 := next_tick _). unfold supervised.
  intros H.
  destruct (idle_client cfg env fuel (tick w1) w2) as [r1 w3] eqn:Hi.
  exists r1, w3. split; [reflexivity|].
  revert H. unfold finally at 1, catch at 1. unfold mbind at 1, M_bind at 1.
  rewrite Hi. destruct r1 as [[[]|e]|]; [| |by intros [= <- <-]].
  - intros H. exists (Ret Continue), w3. split; [done|].
    apply (closing_session (Ret Continue)). exact H.
  - unfold on_Exception. destruct (is_Exception e).
    + unfold mbind at 1, M_bind at 1, log, emit, modify.
      destruct (on_failure cfg _) as [r2 w4] eqn:Hof.
      pose proof (on_failure_tidy _ _ _ Hof) as (_ & _ & _ & _ & _ & Hr2).
      destruct r2 as [s|]; [|done].
      intros H. exists s, w4. split; [reflexivity|].
      apply (closing_session s). exact H.
    + intros H. exists (Raise e), w3. split; [done|].
      apply (closing_session (Raise e)). exact H.
Qed.


(** ** Sessions and IDLE mode are always given back *)

(** X1.  When the worker ends, by returning or by an exception, it has
    closed as many sessions as it opened, primary and secondary alike, and
    has left IDLE mode as many times as it entered it. *)
Theorem every_session_closed_when_the_worker_ends fuel rounds w o w' :
  idle cfg env fuel rounds w = (Some o, w') →
  (opened w' + closed w = opened w + closed w')%nat ∧
  (entered w' + left_idle w = entered w + left_idle w')%nat.
Proof.
  intros H. apply idle_tidy in H as [_ Hb]. by apply Hb.
Qed.

(** X2.  However long the worker runs and whatever happens, every
    connection it asks for, for the IDLE session or for fetching an
    envelope, is to the configured folder and read-only. *)
Theorem connections_only_to_the_configured_folder_read_only fuel rounds w :
  stray_connects cfg (idle cfg env fuel rounds w).2 = stray_connects cfg w.
Proof.
  destruct (idle cfg env fuel rounds w) as [r w'] eqn:H.
  by apply idle_tidy in H as [(_ & ? & _) _].
Qed.

(** X3.  In a round that obtained a session and came to an end, closing
    that session is the last thing done: after the IDLE session, and after
    the error handling of a failed one, the pause before the next attempt
    included. *)
Theorem primary_session_closed_last fuel w o w' :
  idle_iteration cfg env fuel w = (Some o, w') →
  thread_stopped w || stop_requested env (tick w) = false →
  connect_answer env (S (tick w)) = Ret () →
  head (trace w')
    = Some (Logout (S (tick w)) (logout_answer env (pred (tick w')))).
Proof.
  intros H Hs Hc. apply idle_iteration_inv in H. cbn zeta in H.
  rewrite Hs in H. cbn [tick next_tick set_thread_stopped] in H.
  rewrite Hc in H. destruct H as (r1 & w3 & _ & H).
  destruct r1 as [o1|]; [|by destruct H].
  destruct H as (s & w4 & _ & -> & _). reflexivity.
Qed.

(** ** The error counter *)

Lemma idle_iteration_count fuel w r w' :
  0 < MAX_IMAP_ERROR_COUNT cfg →
  0 ≤ imap_error_count w ≤ MAX_IMAP_ERROR_COUNT cfg →
  idle_iteration cfg env fuel w = (r, w') →
  0 ≤ imap_error_count w' ≤ MAX_IMAP_ERROR_COUNT cfg + 1 ∧
  (r = None ∨ r = Some (Ret Continue) →
   imap_error_count w' ≤ MAX_IMAP_ERROR_COUNT cfg).
Proof.
  intros Hmax Hc H. apply idle_iteration_inv in H. cbn zeta in H.
  apply Z.ltb_lt in Hmax.
  destruct (thread_stopped w || stop_requested env (tick w)).
  { destruct H as [-> ->]. cbn. split; [lia|]. intros _. lia. }
  destruct (connect_answer env _) as [[]|ex].
  2:{ destruct (is_Exception ex).
      - apply on_failure_post in H as (_ & _ & _ & Hc' & ->).
        rewrite Hmax in *. cbn in Hc'. cbn [andb]. split; [lia|].
        intros [|[=Hr]]; [done|].
        destruct (Z.ltb_spec (MAX_IMAP_ERROR_COUNT cfg) (imap_error_count w'));
          [done|lia].
      - destruct H as [-> ->]. cbn. split; [lia|]. intros _. lia. }
  destruct H as (r1 & w3 & Hi & H).
  apply idle_client_post in Hi as (_ & _ & _ & Hor & _). cbn in Hor.
  destruct r1 as [o|].
  2:{ destruct H as [-> ->]. split; [lia|]. intros _. lia. }
  destruct H as (s & w4 & Hs & -> & ->). cbn.
  destruct o as [[]|e].
  { destruct Hs as [-> ->]. split; [lia|]. intros _. lia. }
  destruct (is_Exception e).
  2:{ destruct Hs as [-> ->]. split; [lia|]. intros _. lia. }
  apply on_failure_post in Hs as (_ & _ & _ & Hc' & [= ->]).
  rewrite Hmax in *. cbn in Hc'. cbn [andb]. split; [lia|].
  destruct (Z.ltb_spec (MAX_IMAP_ERROR_COUNT cfg) (imap_error_count w4));
    [|lia].
  intros [Hr|Hr]; destruct (logout_answer env (tick w4)) as [|[]];
    discriminate.
Qed.

(** X4.  Under a positive budget [N] the error counter stays between 0
    and [N + 1] for as long as the worker runs, and a worker that is still
    running has a counter within the budget: the counter reaches [N + 1]
    only on the failure that ends the worker. *)
Theorem counter_within_budget_while_running fuel rounds w r w' :
  0 < MAX_IMAP_ERROR_COUNT cfg →
  0 ≤ imap_error_count w ≤ MAX_IMAP_ERROR_COUNT cfg →
  idle cfg env fuel rounds w = (r, w') →
  0 ≤ imap_error_count w' ≤ MAX_IMAP_ERROR_COUNT cfg + 1 ∧
  (r = None → imap_error_count w' ≤ MAX_IMAP_ERROR_COUNT cfg).
Proof.
  intros Hmax. revert w. induction rounds as [|k IH]; intros w Hc H.
  { cbv in H. simplify_eq. split; [lia|]. intros _. lia. }
  cbn [idle] in H. revert H. unfold mbind at 1, M_bind at 1.
  destruct (idle_iteration cfg env fuel w) as [r1 w1] eqn:Hit.
  apply (idle_iteration_count _ _ _ _ Hmax Hc) in Hit as [Hb Hrun].
  destruct r1 as [[[| |]|e]|]; intros H;
    try (cbv in H; simplify_eq; split; [exact Hb|]; done).
  - apply IH in H; [exact H|]. split; [lia|]. apply Hrun. auto.
  - simplify_eq. split; [exact Hb|]. intros _. apply Hrun. auto.
Qed.

(** X5.  The budget counts consecutive failures only.  In a round that
    completes at least one check and then fails, the counter restarts: it
    ends at 1 under a positive budget, whatever it was, and at 0 without
    one; either way the worker goes on. *)
Theorem failure_after_a_completed_check_counts_one fuel w r w' :
  uninterrupted env →
  idle_iteration cfg env fuel w = (r, w') →
  failures w' = S (failures w) →
  completed_checks w' ≠ completed_checks w →
  imap_error_count w' = (if 0 <? MAX_IMAP_ERROR_COUNT cfg then 1 else 0) ∧
  r = Some (Ret Continue).
Proof.
  intros Henv H Hf Hk.
  apply idle_iteration_post in H as [_ [[Hf' _]|(_ & Hc & Hr)]]; [lia|].
  rewrite decide_False in Hc by done. rewrite Z.add_0_l in Hc.
  split; [exact Hc|].
  destruct Hr as [->|[t Ht]]; [|by destruct (Henv t) as (_&_&_&_&?&_)].
  rewrite Hc.
  destruct (Z.ltb_spec 0 (MAX_IMAP_ERROR_COUNT cfg)); cbn [andb];
    [|reflexivity].
  by rewrite (proj2 (Z.ltb_ge _ _)) by lia.
Qed.


Lemma on_failure_sleeps w r w' :
  on_failure cfg w = (r, w') →
  let paused :=
    negb ((0 <? MAX_IMAP_ERROR_COUNT cfg)
          && (MAX_IMAP_ERROR_COUNT cfg <? imap_error_count w'))
    && (0 <? SECONDS_TO_WAIT_AFTER_ERROR cfg) in
  failures w' = failures w ∧
  sleeps w' = (sleeps w + (if paused then 1 else 0))%nat.
Proof.
  cbn zeta. unfold on_failure. run. intros H.
  repeat case_match; simplify_eq; observe; cbn [andb negb] in *;
    repeat match goal with H : (_ <? _) = _ |- _ => rewrite H end;
    cbn [andb negb]; split; try reflexivity; lia.
Qed.

(** X6.  A round sleeps at most once, and only to pause after a failure:
    it sleeps exactly when it logged a connection or IDLE failure, a
    positive pause is configured, and the failure did not exhaust the
    budget.  A round that ends normally (stop, renewal of the session)
    does not sleep. *)
Theorem backoff_only_after_a_failure fuel w :
  let w' := (idle_iteration cfg env fuel w).2 in
  let failed := bool_decide (failures w' = S (failures w)) in
  let exhausted :=
    (0 <? MAX_IMAP_ERROR_COUNT cfg)
    && (MAX_IMAP_ERROR_COUNT cfg <? imap_error_count w') in
  let paused :=
    failed && negb exhausted && (0 <? SECONDS_TO_WAIT_AFTER_ERROR cfg) in
  sleeps w' = (sleeps w + (if paused then 1 else 0))%nat.
Proof.
  cbn zeta. destruct (idle_iteration cfg env fuel w) as [r w'] eqn:H.
  cbn [snd]. apply idle_iteration_inv in H. cbn zeta in H.
  assert (∀ x y : nat, x = y → bool_decide (x = S y) = false) as Hno.
  { intros. apply bool_decide_eq_false_2. lia. }
  assert (∀ x y : nat, x = S y → bool_decide (x = S y) = true) as Hyes.
  { intros. by apply bool_decide_eq_true_2. }
  destruct (thread_stopped w || stop_requested env (tick w)).
  { destruct H as [_ ->]. observe. rewrite Hno by reflexivity. cbn. lia. }
  destruct (connect_answer env _) as [[]|ex].
  2:{ destruct (is_Exception ex).
      - apply on_failure_sleeps in H as [Hf Hsl]. observe.
        rewrite Hsl, (Hyes _ _ Hf). cbn [andb]. reflexivity.
      - destruct H as [_ ->]. observe. rewrite Hno by reflexivity. cbn. lia. }
  destruct H as (r1 & w3 & Hi & H).
  apply idle_client_post in Hi as (Hf3 & Hs3 & _). observe.
  destruct r1 as [o|].
  2:{ destruct H as [_ ->]. rewrite Hno, Hs3 by done. cbn. lia. }
  destruct H as (s & w4 & Hs & -> & _). observe.
  destruct o as [[]|e].
  { destruct Hs as [_ ->]. rewrite Hno, Hs3 by done. cbn. lia. }
  destruct (is_Exception e).
  2:{ destruct Hs as [_ ->]. rewrite Hno, Hs3 by done. cbn. lia. }
  apply on_failure_sleeps in Hs as [Hf Hsl]. observe.
  rewrite Hsl, Hs3.
  rewrite (Hyes (occurrences is_failure (trace w4))
             (occurrences is_failure (trace w))) by lia.
  cbn [andb]. reflexivity.
Qed.

(** ** Shutdown *)

Lemma not_interrupted {A} (x : outcome A) :
  x ≠ Raise KeyboardInterrupt →
  (∃ a, x = Ret a) ∨ ∃ e, x = Raise e ∧ is_Exception e = true.
Proof. destruct x as [a|[]]; eauto; done. Qed.

Lemma stopped_worker_returns fuel rounds w :
  thread_stopped w = true →
  idle cfg env fuel (S rounds) w
  = (Some (Ret ()), record (Log ThreadStopped) (next_tick w)).
Proof.
  intros Hs. cbn [idle]. unfold idle_iteration. run. rewrite Hs. cbn [orb].
  destruct w; cbn in *; subst; reflexivity.
Qed.

(** X7.  A stop request is honoured at the top of the wait loop: the
    worker does not wait for another notification; it leaves IDLE mode,
    closes the session (errors of both ignored), counts no error, and the
    next round of the main loop ends the worker. *)
Theorem stop_request_ends_the_worker fuel fuel' rounds c w :
  thread_stopped w || stop_requested env (tick w) = true →
  idle_done_answer env (S (tick w)) ≠ Raise KeyboardInterrupt →
  logout_answer env (S (S (tick w))) ≠ Raise KeyboardInterrupt →
  ∃ w',
    supervised cfg env (idle_client_wait cfg env (S fuel) c) c w
      = (Some (Ret Continue), w') ∧
    trace w' =
      Logout c (logout_answer env (S (S (tick w))))
      :: IdleDone c (idle_done_answer env (S (tick w)))
      :: Log LeavingIdle
      :: trace w ∧
    imap_error_count w' = imap_error_count w ∧
    idle cfg env fuel' (S rounds) w'
      = (Some (Ret ()), record (Log ThreadStopped) (next_tick w')).
Proof.
  intros Hs Hdone Hlogout.
  exists
    (next_tick
       (record (Logout c (logout_answer env (S (S (tick w)))))
          (next_tick
             (record (IdleDone c (idle_done_answer env (S (tick w))))
                (record (Log LeavingIdle)
                   (next_tick (set_thread_stopped true w))))))).
  split.
  { unfold supervised, idle_client_wait, leave_idle. cbn [idle_client_loop].
    run. rewrite Hs. observe.
    destruct (not_interrupted _ Hdone) as [[[] Hd]|(e1 & Hd & He1)];
      destruct (not_interrupted _ Hlogout) as [[[] Hl]|(e2 & Hl & He2)];
      repeat first [ rewrite Hd | rewrite Hl | rewrite He1 | rewrite He2
                   | progress observe ];
      reflexivity. }
  do 2 (split; [reflexivity|]).
  apply stopped_worker_returns. reflexivity.
Qed.

(** X8.  A [KeyboardInterrupt] during a wait is a stop request and not a
    failure: the worker logs it, sets its stop flag, leaves IDLE mode and
    closes the session; no error is counted or logged as a failure, and
    the next round of the main loop ends the worker. *)
Theorem keyboard_interrupt_in_a_wait_ends_the_worker
    fuel fuel' rounds c w wa wb :
  read_thread_stopped env w = (Some (Ret false), wa) →
  reconnection_due cfg env wa = (Some (Ret false), wb) →
  idle_check_answer env (tick wb) = Raise KeyboardInterrupt →
  idle_done_answer env (S (tick wb)) ≠ Raise KeyboardInterrupt →
  logout_answer env (S (S (tick wb))) ≠ Raise KeyboardInterrupt →
  ∃ w',
    supervised cfg env (idle_client_wait cfg env (S fuel) c) c w
      = (Some (Ret Continue), w') ∧
    trace w' =
      Logout c (logout_answer env (S (S (tick wb))))
      :: IdleDone c (idle_done_answer env (S (tick wb)))
      :: Log LeavingIdle
      :: Log StoppedByKeyboard
      :: IdleCheck c (SECONDS_TO_WAIT_FOR_IDLE_RESPONSE cfg)
           (Raise KeyboardInterrupt)
      :: trace wb ∧
    thread_stopped w' = true ∧
    imap_error_count w' = imap_error_count wb ∧
    failures w' = failures wb ∧
    idle cfg env fuel' (S rounds) w'
      = (Some (Ret ()), record (Log ThreadStopped) (next_tick w')).
Proof.
  intros Hs Hd Hcheck Hdone Hlogout.
  exists
    (next_tick
       (record (Logout c (logout_answer env (S (S (tick wb)))))
          (next_tick
             (record (IdleDone c (idle_done_answer env (S (tick wb))))
                (record (Log LeavingIdle)
                   (set_thread_stopped true
                      (record (Log StoppedByKeyboard)
                         (next_tick
                            (record
                               (IdleCheck c
                                  (SECONDS_TO_WAIT_FOR_IDLE_RESPONSE cfg)
                                  (Raise KeyboardInterrupt)) wb))))))))).
  assert (idle_client_loop cfg env (S fuel) c w
          = (Some (Ret ()),
             set_thread_stopped true
               (record (Log StoppedByKeyboard)
                  (next_tick
                     (record
                        (IdleCheck c (SECONDS_TO_WAIT_FOR_IDLE_RESPONSE cfg)
                           (Raise KeyboardInterrupt)) wb))))) as Hloop.
  { cbn [idle_client_loop].
    unfold mbind at 1, M_bind at 1. rewrite Hs.
    unfold mbind at 1, M_bind at 1. rewrite Hd.
    unfold mbind at 1, M_bind at 1.
    unfold check_cycle, idle_loop. run. rewrite Hcheck. reflexivity. }
  split.
  { unfold supervised, idle_client_wait.
    unfold finally at 1, catch at 1. unfold mbind at 1, M_bind at 1.
    unfold finally at 1. rewrite Hloop.
    unfold leave_idle. run. observe.
    destruct (not_interrupted _ Hdone) as [[[] Hdn]|(e1 & Hdn & He1)];
      destruct (not_interrupted _ Hlogout) as [[[] Hl]|(e2 & Hl & He2)];
      repeat first [ rewrite Hdn | rewrite Hl | rewrite He1 | rewrite He2
                   | progress observe ];
      reflexivity. }
  do 4 (split; [reflexivity|]).
  apply stopped_worker_returns. reflexivity.
Qed.


(** X15.  A stop requested after the session was obtained and before IDLE
    mode is entered: the worker does not enter IDLE mode at all; it closes
    the session, counts no error, and the next round ends the worker. *)
Theorem stop_before_idle_entry fuel fuel' rounds w :
  thread_stopped w || stop_requested env (tick w) = false →
  connect_answer env (S (tick w)) = Ret () →
  stop_requested env (S (S (tick w))) = true →
  logout_answer env (S (S (S (tick w)))) ≠ Raise KeyboardInterrupt →
  ∃ w',
    idle_iteration cfg env fuel w = (Some (Ret Continue), w') ∧
    trace w' =
      Logout (S (tick w)) (logout_answer env (S (S (S (tick w)))))
      :: Connect (folder cfg) true (Ret (S (tick w)))
      :: trace w ∧
    imap_error_count w' = imap_error_count w ∧
    idle cfg env fuel' (S rounds) w'
      = (Some (Ret ()), record (Log ThreadStopped) (next_tick w')).
Proof.
  intros Hs Hconn Hs2 Hlogout.
  exists
    (next_tick
       (record (Logout (S (tick w)) (logout_answer env (S (S (S (tick w))))))
          (next_tick
             (set_thread_stopped true
                (next_tick
                   (record (Connect (folder cfg) true (Ret (S (tick w))))
                      (next_tick (set_thread_stopped false w)))))))).
  split.
  { unfold idle_iteration, after_connect, supervised, idle_client. run.
    rewrite Hs. observe. rewrite Hconn. observe. rewrite Hs2. cbn [orb].
    observe.
    destruct (not_interrupted _ Hlogout) as [[[] Hl]|(e2 & Hl & He2)];
      repeat first [ rewrite Hl | rewrite He2 | progress observe ];
      reflexivity. }
  do 2 (split; [reflexivity|]).
  apply stopped_worker_returns. reflexivity.
Qed.

(** ** Failing to enter IDLE mode *)

(** X9.  When [idle()] raises an [Exception] on a fresh session, the
    failure is wrapped as 'IDLE mode failed.', logged as an IDLE failure
    and handed to the error budget; IDLE mode is not left, since it was
    never entered; and the session is closed, after the budget and its
    pause have been dealt with. *)
Theorem failed_idle_entry fuel w e :
  thread_stopped w || stop_requested env (tick w) = false →
  connect_answer env (S (tick w)) = Ret () →
  stop_requested env (S (S (tick w))) = false →
  idle_answer env (S (S (S (S (tick w))))) = Raise e →
  is_Exception e = true →
  ∃ w3 s w4,
    trace w3 =
      Idle (S (tick w)) (Raise e)
      :: Time (clock env (S (S (S (tick w)))))
      :: Log EnterIdle
      :: Connect (folder cfg) true (Ret (S (tick w)))
      :: trace w ∧
    imap_error_count w3 = imap_error_count w ∧
    on_failure cfg
      (record (Log (IdleFailed (Exception "IDLE mode failed." e))) w3)
      = (Some s, w4) ∧
    idle_iteration cfg env fuel w
      = (match logout_answer env (tick w4) with
         | Raise KeyboardInterrupt => Some (Raise KeyboardInterrupt)
         | _ => Some s
         end,
         next_tick
           (record (Logout (S (tick w)) (logout_answer env (tick w4))) w4)) ∧
    left_idle w4 = left_idle w.
Proof.
  intros Hs Hconn Hs2 Hidle He.
  destruct (idle_iteration cfg env fuel w) as [r w'] eqn:H.
  apply idle_iteration_inv in H. cbn zeta in H. rewrite Hs in H.
  cbn [tick next_tick set_thread_stopped] in H. rewrite Hconn in H.
  destruct H as (r1 & w3 & Hi & H).
  revert Hi. unfold idle_client, enter_idle. run. observe.
  apply orb_false_elim in Hs as [Hs _].
  repeat first [ rewrite Hs2 | rewrite Hidle | rewrite He
               | progress observe | progress cbn [orb] ].
  intros [= <- <-].
  destruct H as (s & w4 & Hof & -> & ->). cbn [is_Exception] in Hof.
  match type of Hof with
  | on_failure _ (record _ ?w3) = _ => exists w3, s, w4
  end.
  split; [reflexivity|]. split; [reflexivity|].
  split; [exact Hof|]. split; [reflexivity|].
  by apply on_failure_tidy in Hof as (_ & _ & _ & _ & ? & _).
Qed.

(** ** Fetching and dispatching *)

(** X10.  On an open secondary session the fetcher returns what the fetch
    result holds under the message number and then under ENVELOPE, and
    [None] with a warning when either key is missing; the session is
    closed in all three cases. *)
Theorem fetched_envelope_is_the_one_stored n w result :
  connect_answer env (tick w) = Ret () →
  fetch_answer env (S (tick w)) = Ret result →
  logout_answer env (S (S (tick w))) ≠ Raise KeyboardInterrupt →
  (get_message_envelope cfg env (PyInt n) w).1
    = Some (Ret (default PyNone (result !! n ≫= (.!! ENVELOPE)))) ∧
  trace (get_message_envelope cfg env (PyInt n) w).2
    = Logout (tick w) (logout_answer env (S (S (tick w))))
      :: match result !! n with
         | None => [Log (NoDataFound (PyInt n))]
         | Some message_result =>
             match message_result !! ENVELOPE with
             | None => [Log (NoEnvelopeFound (PyInt n))]
             | Some _ => []
             end
         end
      ++ Fetch (tick w) (PyInt n) (Ret result)
      :: Connect (folder cfg) true (Ret (tick w))
      :: trace w.
Proof.
  intros Hconn Hfetch Hlogout.
  unfold get_message_envelope, lookup_message, int_key. run.
  cbn [hashable negb mbind outcome_bind option_bind]. observe.
  rewrite Hconn. observe. rewrite Hfetch. cbn [mbind option_bind].
  destruct (result !! n) as [message_result|] eqn:Hn; cbn [mbind option_bind default];
    [destruct (message_result !! ENVELOPE) as [envelope|] eqn:Henv|];
    cbn [default]; observe;
    destruct (not_interrupted _ Hlogout) as [[[] Hl]|(e2 & Hl & He2)];
    repeat first [ rewrite Hl | rewrite He2 | progress observe ];
    split; reflexivity.
Qed.

(** X11.  The callback is invoked at most once in a wait-and-check, and
    only when a notification arrived, the parser found a message number in
    it and the fetcher returned an envelope for that number; the envelope
    handed to the callback is that one, and a failure of the callback is
    the last thing logged. *)
Theorem dispatch_only_for_a_fetched_envelope c w r w' :
  idle_loop cfg env c w = (r, w') →
  dispatches w' ≠ dispatches w →
  ∃ responses nr envelope w2,
    idle_check_answer env (tick w) = Ret responses ∧
    get_new_message_number responses (ignoreRecentFlag cfg) = Ret nr ∧
    truthy nr = true ∧
    get_message_envelope cfg env nr
      (record (Log (FetchingEnvelope nr))
         (record (Log (Received responses))
            (next_tick
               (record (IdleCheck c (SECONDS_TO_WAIT_FOR_IDLE_RESPONSE cfg)
                          (Ret responses)) w))))
      = (Some (Ret envelope), w2) ∧
    truthy envelope = true ∧
    dispatches w' = S (dispatches w) ∧
    trace w' =
      match trigger_answer env (tick w2) with
      | Raise e => if is_Exception e then [Log (CallbackFailed e)] else []
      | Ret _ => []
      end
      ++ Trigger envelope (trigger_answer env (tick w2)) :: trace w2.
Proof.
  unfold idle_loop. run. intros H Hd.
  destruct (idle_check_answer env (tick w)) as [responses|e] eqn:Hcheck;
    [|simplify_eq; by tally].
  destruct (get_new_message_number_returns responses (ignoreRecentFlag cfg))
    as [nr Hnr].
  rewrite Hnr in H.
  destruct (negb (truthy responses)); [simplify_eq; by tally|].
  destruct (truthy nr) eqn:Hnt; cbn [negb] in H; [|simplify_eq; by tally].
  destruct (get_message_envelope _ _ _ _) as [r1 w1] eqn:Hfetch.
  pose proof (get_message_envelope_inner _ _ _ _ Hfetch) as [_ Hd1].
  pose proof (get_message_envelope_post _ _ _ _ _ _ Hfetch)
    as (_ & _ & _ & _ & o & -> & _).
  destruct o as [envelope|e]; [|simplify_eq; exfalso; revert Hd Hd1; by tally].
  destruct (truthy envelope) eqn:Het; cbn [negb] in H;
    [|simplify_eq; exfalso; revert Hd Hd1; by tally].
  exists responses, nr, envelope, w1.
  do 5 (split; [first [reflexivity | assumption]|]).
  clear Hd. revert Hd1. tally. intros Hd1.
  destruct (trigger_answer env (tick w1)) as [[]|e]; [simplify_eq; tally; auto|].
  destruct (is_Exception e); simplify_eq; tally; auto.
Qed.

(** X12.  The whole path of a new message.  A notification arrives, the
    parser finds the number [n] in it, [n] is not 0, the fetch result holds
    an envelope under [n], and the callback returns.  Then the cycle does
    exactly this, in this order: wait; log what arrived; log the fetch;
    open a secondary session; fetch [n]; close the secondary session; hand
    the envelope to the callback, once. *)
Theorem new_message_is_delivered c w responses n result message_result envelope :
  idle_check_answer env (tick w) = Ret responses →
  get_new_message_number responses (ignoreRecentFlag cfg) = Ret (PyInt n) →
  n ≠ 0 →
  connect_answer env (S (tick w)) = Ret () →
  fetch_answer env (S (S (tick w))) = Ret result →
  result !! n = Some message_result →
  message_result !! ENVELOPE = Some envelope →
  truthy envelope = true →
  logout_answer env (S (S (S (tick w)))) ≠ Raise KeyboardInterrupt →
  trigger_answer env (S (S (S (S (tick w))))) = Ret () →
  (idle_loop cfg env c w).1 = Some (Ret ()) ∧
  trace (idle_loop cfg env c w).2 =
    [ Trigger envelope (Ret ());
      Logout (S (tick w)) (logout_answer env (S (S (S (tick w)))));
      Fetch (S (tick w)) (PyInt n) (Ret result);
      Connect (folder cfg) true (Ret (S (tick w)));
      Log (FetchingEnvelope (PyInt n));
      Log (Received responses);
      IdleCheck c (SECONDS_TO_WAIT_FOR_IDLE_RESPONSE cfg) (Ret responses) ]
    ++ trace w.
Proof.
  intros Hcheck Hnr Hn Hconn Hfetch Hres Henv Htruthy Hlogout Htrig.
  unfold idle_loop, get_message_envelope, lookup_message, int_key. run.
  rewrite Hcheck, (parsed_means_nonempty _ _ _ Hnr) by done.
  rewrite Hnr. cbn [negb truthy hashable mbind outcome_bind option_bind].
  rewrite (proj2 (Z.eqb_neq _ _) Hn). cbn [negb]. observe.
  rewrite Hconn. observe. rewrite Hfetch. cbn [mbind option_bind].
  rewrite Hres, Henv. observe.
  destruct (not_interrupted _ Hlogout) as [[[] Hl]|(e2 & Hl & He2)];
    repeat first [ rewrite Hl | rewrite He2 | rewrite Htruthy | rewrite Htrig
                 | progress observe | progress cbn [negb] ];
    split; reflexivity.
Qed.

End Resources.

(** ** More on the parser *)

(** X13.  The two modes are not ordered.  The strict mode reports a number
    that the relaxed mode does not report exactly when the notification
    starts with a RECENT pair followed by the EXISTS pair; the relaxed mode
    reports a number that the strict mode does not report exactly when the
    notification starts with an EXISTS pair that is not followed by a
    RECENT pair. *)
Theorem neither_mode_includes_the_other (raw : notification) (n : Z) :
  (get_new_message_number (encode raw) false = Ret (PyInt n) ∧
   get_new_message_number (encode raw) true ≠ Ret (PyInt n) ↔
   ∃ t rest, raw = (t, RECENT) :: (n, EXISTS) :: rest) ∧
  (get_new_message_number (encode raw) true = Ret (PyInt n) ∧
   get_new_message_number (encode raw) false ≠ Ret (PyInt n) ↔
   raw = [(n, EXISTS)] ∨
   ∃ t k rest, raw = (n, EXISTS) :: (t, k) :: rest ∧ k ≠ RECENT).
Proof.
  assert (EXISTS ≠ RECENT) as Hne by discriminate.
  rewrite encode_parse_strict, encode_parse_relaxed.
  destruct raw as [|[t1 k1] [|[t2 k2] rest]];
    repeat case_bool_decide; cbn [andb]; subst;
    (split; split; [intros [Hs Hr] | intros Hx | intros [Hr Hs] | intros Hx]);
    repeat match goal with
           | H : _ ∨ _ |- _ => destruct H
           | H : ∃ _, _ |- _ => destruct H
           | H : _ ∧ _ |- _ => destruct H
           end;
    simplify_eq;
    first [ done
          | split; [reflexivity | discriminate]
          | by left
          | right; eauto
          | eauto ].
Qed.

(** X14.  The parser looks at nothing beyond the first two elements of the
    list in strict mode and beyond the first in relaxed mode: whatever
    follows, a further EXISTS included, does not change its answer. *)
Theorem parser_reads_only_the_head :
  (∀ a b rest rest',
     get_new_message_number (PyList (a :: b :: rest)) false
     = get_new_message_number (PyList (a :: b :: rest')) false) ∧
  (∀ a rest rest',
     get_new_message_number (PyList (a :: rest)) true
     = get_new_message_number (PyList (a :: rest')) true) ∧
  get_new_message_number
    (encode [(275, EXISTS); (1, RECENT); (276, EXISTS); (2, RECENT)]) false
  = Ret (PyInt 275).
Proof.
  split; [|split; [|reflexivity]].
  - intros. rewrite !strict_parse.
    destruct a as [| | | | |[|? [|? ?]]| |], b as [| | | | |[|? [|? ?]]| |];
      reflexivity.
  - intros. rewrite !relaxed_parse.
    destruct a as [| | | | |[|? [|? ?]]| |]; reflexivity.
Qed.

(** ** Instances of the further properties *)

Lemma flaky_uninterrupted : uninterrupted flaky.
Proof.
  intros t. repeat split; try discriminate.
  cbn. destruct (t <=? 7)%nat; discriminate.
Qed.

(** Two sessions opened and closed, IDLE mode entered and left twice. *)
Lemma every_session_closed_witness :
  (opened (idle (with_budget 1) dropping 1 2 init).2 + closed init
   = opened init + closed (idle (with_budget 1) dropping 1 2 init).2)%nat ∧
  (entered (idle (with_budget 1) dropping 1 2 init).2 + left_idle init
   = entered init + left_idle (idle (with_budget 1) dropping 1 2 init).2)%nat.
Proof.
  apply (every_session_closed_when_the_worker_ends
           (with_budget 1) dropping 1 2 init (Ret ())).
  vm_compute. reflexivity.
Defined.

(** A failed round of an unlimited worker: the session is closed after the
    pause of 60 seconds. *)
Lemma primary_session_closed_last_witness :
  head (trace (idle_iteration (with_budget 0) dropping 1 init).2)
    = Some (Logout (S (tick init))
              (logout_answer dropping
                 (pred (tick (idle_iteration (with_budget 0) dropping 1 init).2)))).
Proof.
  apply (primary_session_closed_last
           (with_budget 0) dropping 1 init (Ret Continue)).
  - vm_compute. reflexivity.
  - reflexivity.
  - reflexivity.
Defined.

Lemma counter_within_budget_witness :
  0 ≤ imap_error_count (idle (with_budget 2) unreachable 0 3 init).2
    ≤ MAX_IMAP_ERROR_COUNT (with_budget 2) + 1 ∧
  ((idle (with_budget 2) unreachable 0 3 init).1 = None →
   imap_error_count (idle (with_budget 2) unreachable 0 3 init).2
     ≤ MAX_IMAP_ERROR_COUNT (with_budget 2)).
Proof.
  apply (counter_within_budget_while_running
           (with_budget 2) unreachable 0 3 init).
  - reflexivity.
  - vm_compute. split; discriminate.
  - vm_compute. reflexivity.
Defined.

(** One wait completes, the next one fails: the counter, which was 0,
    ends at 1 and the worker goes on, even with a budget of 1. *)
Lemma failure_after_a_completed_check_witness :
  imap_error_count (idle_iteration (with_budget 1) flaky 2 init).2 = 1 ∧
  (idle_iteration (with_budget 1) flaky 2 init).1 = Some (Ret Continue).
Proof.
  apply (failure_after_a_completed_check_counts_one
           (with_budget 1) flaky 2 init).
  - exact flaky_uninterrupted.
  - vm_compute. reflexivity.
  - vm_compute. reflexivity.
  - vm_compute. discriminate.
Defined.

Lemma stop_request_witness :
  ∃ w',
    supervised default_config stop_called
      (idle_client_wait default_config stop_called 1 0%nat) 0%nat idling
      = (Some (Ret Continue), w') ∧
    trace w' =
      Logout 0%nat (logout_answer stop_called (S (S (tick idling))))
      :: IdleDone 0%nat (idle_done_answer stop_called (S (tick idling)))
      :: Log LeavingIdle
      :: trace idling ∧
    imap_error_count w' = imap_error_count idling ∧
    idle default_config stop_called 1 1 w'
      = (Some (Ret ()), record (Log ThreadStopped) (next_tick w')).
Proof.
  apply (stop_request_ends_the_worker
           default_config stop_called 0 1 0 0%nat idling).
  - reflexivity.
  - discriminate.
  - discriminate.
Defined.

Lemma keyboard_interrupt_witness :
  let wb := (reconnection_due default_config interrupting
               (read_thread_stopped interrupting idling).2).2 in
  ∃ w',
    supervised default_config interrupting
      (idle_client_wait default_config interrupting 1 0%nat) 0%nat idling
      = (Some (Ret Continue), w') ∧
    trace w' =
      Logout 0%nat (logout_answer interrupting (S (S (tick wb))))
      :: IdleDone 0%nat (idle_done_answer interrupting (S (tick wb)))
      :: Log LeavingIdle
      :: Log StoppedByKeyboard
      :: IdleCheck 0%nat (SECONDS_TO_WAIT_FOR_IDLE_RESPONSE default_config)
           (Raise KeyboardInterrupt)
      :: trace wb ∧
    thread_stopped w' = true ∧
    imap_error_count w' = imap_error_count wb ∧
    failures w' = failures wb ∧
    idle default_config interrupting 1 1 w'
      = (Some (Ret ()), record (Log ThreadStopped) (next_tick w')).
Proof.
  apply (keyboard_interrupt_in_a_wait_ends_the_worker
           default_config interrupting 0 1 0 0%nat idling
           (read_thread_stopped interrupting idling).2).
  - vm_compute. reflexivity.
  - vm_compute. reflexivity.
  - reflexivity.
  - discriminate.
  - discriminate.
Defined.

Lemma failed_idle_entry_witness :
  let e := LibraryError "IDLE not supported" in
  ∃ w3 s w4,
    trace w3 =
      Idle (S (tick init)) (Raise e)
      :: Time (clock refusing_idle (S (S (S (tick init)))))
      :: Log EnterIdle
      :: Connect (folder default_config) true (Ret (S (tick init)))
      :: trace init ∧
    imap_error_count w3 = imap_error_count init ∧
    on_failure default_config
      (record (Log (IdleFailed (Exception "IDLE mode failed." e))) w3)
      = (Some s, w4) ∧
    idle_iteration default_config refusing_idle 1 init
      = (match logout_answer refusing_idle (tick w4) with
         | Raise KeyboardInterrupt => Some (Raise KeyboardInterrupt)
         | _ => Some s
         end,
         next_tick
           (record (Logout (S (tick init))
                      (logout_answer refusing_idle (tick w4))) w4)) ∧
    left_idle w4 = left_idle init.
Proof.
  apply (failed_idle_entry default_config refusing_idle 1 init).
  - reflexivity.
  - reflexivity.
  - reflexivity.
  - reflexivity.
  - reflexivity.
Defined.

Lemma fetched_envelope_witness :
  let result : fetch_result := {[ 42 := {[ ENVELOPE := sample_envelope ]} ]} in
  (get_message_envelope default_config delivering (PyInt 42) idling).1
    = Some (Ret (default PyNone (result !! 42 ≫= (.!! ENVELOPE)))) ∧
  trace (get_message_envelope default_config delivering (PyInt 42) idling).2
    = Logout (tick idling) (logout_answer delivering (S (S (tick idling))))
      :: match result !! 42 with
         | None => [Log (NoDataFound (PyInt 42))]
         | Some message_result =>
             match message_result !! ENVELOPE with
             | None => [Log (NoEnvelopeFound (PyInt 42))]
             | Some _ => []
             end
         end
      ++ Fetch (tick idling) (PyInt 42) (Ret result)
      :: Connect (folder default_config) true (Ret (tick idling))
      :: trace idling.
Proof.
  apply (fetched_envelope_is_the_one_stored
           default_config delivering 42 idling).
  - reflexivity.
  - reflexivity.
  - discriminate.
Defined.

(** A message number the fetch result does not hold gives [None]. *)
Example missing_message_gives_none :
  (get_message_envelope default_config delivering (PyInt 7) idling).1
    = Some (Ret PyNone) ∧
  head (tail (trace
    (get_message_envelope default_config delivering (PyInt 7) idling).2))
    = Some (Log (NoDataFound (PyInt 7))).
Proof. vm_compute. split; reflexivity. Qed.

Lemma dispatch_only_witness :
  let w := idling in
  let r := (idle_loop default_config failing_callback 0%nat w).1 in
  let w' := (idle_loop default_config failing_callback 0%nat w).2 in
  ∃ responses nr envelope w2,
    idle_check_answer failing_callback (tick w) = Ret responses ∧
    get_new_message_number responses (ignoreRecentFlag default_config)
      = Ret nr ∧
    truthy nr = true ∧
    get_message_envelope default_config failing_callback nr
      (record (Log (FetchingEnvelope nr))
         (record (Log (Received responses))
            (next_tick
               (record (IdleCheck 0%nat
                          (SECONDS_TO_WAIT_FOR_IDLE_RESPONSE default_config)
                          (Ret responses)) w))))
      = (Some (Ret envelope), w2) ∧
    truthy envelope = true ∧
    dispatches w' = S (dispatches w) ∧
    trace w' =
      match trigger_answer failing_callback (tick w2) with
      | Raise e => if is_Exception e then [Log (CallbackFailed e)] else []
      | Ret _ => []
      end
      ++ Trigger envelope (trigger_answer failing_callback (tick w2))
      :: trace w2.
Proof.
  apply (dispatch_only_for_a_fetched_envelope
           default_config failing_callback 0%nat idling
           (idle_loop default_config failing_callback 0%nat idling).1).
  - vm_compute. reflexivity.
  - vm_compute. discriminate.
Defined.

Lemma new_message_is_delivered_witness :
  let responses := encode [(42, EXISTS); (1, RECENT)] in
  let result : fetch_result := {[ 42 := {[ ENVELOPE := sample_envelope ]} ]} in
  (idle_loop default_config delivering 0%nat idling).1 = Some (Ret ()) ∧
  trace (idle_loop default_config delivering 0%nat idling).2 =
    [ Trigger sample_envelope (Ret ());
      Logout (S (tick idling))
        (logout_answer delivering (S (S (S (tick idling)))));
      Fetch (S (tick idling)) (PyInt 42) (Ret result);
      Connect (folder default_config) true (Ret (S (tick idling)));
      Log (FetchingEnvelope (PyInt 42));
      Log (Received responses);
      IdleCheck 0%nat (SECONDS_TO_WAIT_FOR_IDLE_RESPONSE default_config)
        (Ret responses) ]
    ++ trace idling.
Proof.
  apply (new_message_is_delivered default_config delivering 0%nat idling
           (encode [(42, EXISTS); (1, RECENT)]) 42
           {[ 42 := {[ ENVELOPE := sample_envelope ]} ]}
           {[ ENVELOPE := sample_envelope ]} sample_envelope).
  - reflexivity.
  - vm_compute. reflexivity.
  - discriminate.
  - reflexivity.
  - reflexivity.
  - vm_compute. reflexivity.
  - vm_compute. reflexivity.
  - reflexivity.
  - discriminate.
  - reflexivity.
Defined.

Lemma stop_before_idle_entry_witness :
  ∃ w',
    idle_iteration default_config stop_after_connect 1 init
      = (Some (Ret Continue), w') ∧
    trace w' =
      Logout (S (tick init))
        (logout_answer stop_after_connect (S (S (S (tick init)))))
      :: Connect (folder default_config) true (Ret (S (tick init)))
      :: trace init ∧
    imap_error_count w' = imap_error_count init ∧
    idle default_config stop_after_connect 1 1 w'
      = (Some (Ret ()), record (Log ThreadStopped) (next_tick w')).
Proof.
  apply (stop_before_idle_entry default_config stop_after_connect 1 1 0 init).
  - reflexivity.
  - reflexivity.
  - reflexivity.
  - discriminate.
Defined.
